(** * implicitdl: the implicit model layer (implicit_model.py)

    A shallow embedding of the three model classes of
    [implicitdl/implicit_model.py] ([ImplicitModel], [ImplicitModelLoRA],
    [ImplicitModelLoRA2]) and of the torch operations their bodies call.

    Tensor entries are real numbers (the exact field the arithmetic of the
    source approximates); a tensor carries its shape, its row-major
    storage, its element type and its device, as a torch tensor does. *)

From Stdlib Require Import Reals Lra Lia List String Arith Bool DecimalString.
Import ListNotations.
Local Open Scope R_scope.

(** ** Exceptions and fallible results *)

(** The Python exceptions a call of this module can end in.  [SolverError]
    stands for whatever the implicit function [f] raises by itself. *)
Inductive exn : Type :=
| AssertionError (msg : string)
| RuntimeError
| TypeError
| SolverError (code : nat).

Inductive result (A : Type) : Type :=
| Ok (a : A)
| Raise (e : exn).
Arguments Ok {A} a.
Arguments Raise {A} e.

Definition bind {A B : Type} (c : result A) (k : A -> result B) : result B :=
  match c with
  | Ok a => k a
  | Raise e => Raise e
  end.

Declare Scope result_scope.
Delimit Scope result_scope with result.
Notation "x <- c ;; k" := (bind c (fun x => k))
  (at level 61, c at next level, right associativity) : result_scope.
Local Open Scope result_scope.

(** ** Tensors *)

Inductive dtype : Type := float16 | bfloat16 | float32 | float64.
Inductive device : Type := cpu | cuda (index : nat).

Definition dtype_eqb (a b : dtype) : bool :=
  match a, b with
  | float16, float16 | bfloat16, bfloat16
  | float32, float32 | float64, float64 => true
  | _, _ => false
  end.

Definition device_eqb (a b : device) : bool :=
  match a, b with
  | cpu, cpu => true
  | cuda i, cuda j => Nat.eqb i j
  | _, _ => false
  end.

(** [torch.promote_types] on the floating element types. *)
Definition promote_types (a b : dtype) : dtype :=
  match a, b with
  | float64, _ | _, float64 => float64
  | float32, _ | _, float32 => float32
  | float16, float16 => float16
  | bfloat16, bfloat16 => bfloat16
  | _, _ => float32
  end.

(** torch's defaults for a tensor created without [dtype=]/[device=]. *)
Definition default_dtype : dtype := float32.
Definition default_device : device := cpu.

(** A tensor of any rank, as a caller hands it to [forward]. *)
Record tensor : Type := mkTensor {
  shape : list nat;
  data : list R;
  dtype_of : dtype;
  device_of : device
}.

(** A rank-2 tensor: [nrows] x [ncols], row-major in [entries]. *)
Record matrix : Type := mkMatrix {
  nrows : nat;
  ncols : nat;
  entries : list R;
  mdtype : dtype;
  mdevice : device
}.

Definition size (M : matrix) : nat * nat := (nrows M, ncols M).

Definition entry (M : matrix) (i j : nat) : R :=
  nth (i * ncols M + j)%nat (entries M) 0.

Definition as_matrix (X : tensor) : option matrix :=
  match shape X with
  | [r; c] => Some (mkMatrix r c (data X) (dtype_of X) (device_of X))
  | _ => None
  end.

Definition as_tensor (M : matrix) : tensor :=
  mkTensor [nrows M; ncols M] (entries M) (mdtype M) (mdevice M).

(** [torch.zeros((r, c), dtype=dt, device=dv)]. *)
Definition zeros (r c : nat) (dt : dtype) (dv : device) : matrix :=
  mkMatrix r c (repeat 0 (r * c)%nat) dt dv.

(** [torch.eye(n, n)]: default element type and device. *)
Definition eye (n : nat) : matrix :=
  mkMatrix n n
    (flat_map (fun i => map (fun j => if Nat.eqb i j then 1 else 0) (seq 0 n))
              (seq 0 n))
    default_dtype default_device.

(** [X.flatten(1, -1)] on a rank-3 tensor: the storage is kept, the last two
    dimensions merge. *)
Definition flatten_1 (X : tensor) : tensor :=
  match shape X with
  | [m; t; p] => mkTensor [m; (t * p)%nat] (data X) (dtype_of X) (device_of X)
  | _ => X
  end.

Definition transpose_matrix (M : matrix) : matrix :=
  mkMatrix (ncols M) (nrows M)
    (flat_map (fun j => map (fun i => entry M i j) (seq 0 (nrows M)))
              (seq 0 (ncols M)))
    (mdtype M) (mdevice M).

(** Modelled from the spec: the helper [transpose] of [implicitdl/utils.py],
    which is not among the sources.  The spec has it turn the batch-major
    (m, p) input into the feature-major (p, m) one and the (q, m) result back
    into (m, q); it is only ever applied to rank-2 data there.  On any other
    rank this model raises. *)
Definition transpose (X : tensor) : result matrix :=
  match as_matrix X with
  | Some M => Ok (transpose_matrix M)
  | None => Raise RuntimeError
  end.

(** [F.pad(U, (0, 0, 0, 1), value=1)] on a rank-2 tensor: nothing is added
    to the last dimension, one row of ones is added after the last row. *)
Definition pad_row_of_ones (U : matrix) : matrix :=
  mkMatrix (nrows U + 1)%nat (ncols U) (entries U ++ repeat 1 (ncols U))
           (mdtype U) (mdevice U).

(** [A @ B]: inner dimensions, element types and devices have to agree. *)
Definition matmul (A B : matrix) : result matrix :=
  if Nat.eqb (ncols A) (nrows B)
     && dtype_eqb (mdtype A) (mdtype B)
     && device_eqb (mdevice A) (mdevice B)
  then Ok (mkMatrix (nrows A) (ncols B)
             (flat_map (fun i =>
                map (fun j =>
                  fold_right Rplus 0
                    (map (fun l => entry A i l * entry B l j)
                         (seq 0 (ncols A))))
                  (seq 0 (ncols B)))
                (seq 0 (nrows A)))
             (mdtype A) (mdevice A))
  else Raise RuntimeError.

(** The size two sizes broadcast to along one dimension. *)
Definition broadcast_dim (a b : nat) : option nat :=
  if Nat.eqb a b then Some a
  else if Nat.eqb a 1 then Some b
  else if Nat.eqb b 1 then Some a
  else None.

(** An entry of [M] read at position (i, j) of the broadcast result. *)
Definition bentry (M : matrix) (i j : nat) : R :=
  entry M (if Nat.eqb (nrows M) 1 then 0%nat else i)
          (if Nat.eqb (ncols M) 1 then 0%nat else j).

(** Entrywise binary operation on two rank-2 tensors, with broadcasting and
    type promotion; the devices have to agree. *)
Definition pointwise (op : R -> R -> R) (A B : matrix) : result matrix :=
  match broadcast_dim (nrows A) (nrows B),
        broadcast_dim (ncols A) (ncols B) with
  | Some r, Some c =>
      if device_eqb (mdevice A) (mdevice B)
      then Ok (mkMatrix r c
                 (flat_map (fun i =>
                    map (fun j => op (bentry A i j) (bentry B i j)) (seq 0 c))
                    (seq 0 r))
                 (promote_types (mdtype A) (mdtype B)) (mdevice A))
      else Raise RuntimeError
  | _, _ => Raise RuntimeError
  end.

Definition add : matrix -> matrix -> result matrix := pointwise Rplus.
Definition mul : matrix -> matrix -> result matrix := pointwise Rmult.

(** ** The infinity norm and the projection *)

(** Sum of the absolute values of row [i] of a matrix with [c] columns. *)
Definition row_abs_sum (d : list R) (c i : nat) : R :=
  fold_right Rplus 0 (map (fun j => Rabs (nth (i * c + j)%nat d 0)) (seq 0 c)).

(** [amax] over one dimension: it has no value on an empty one. *)
Definition amax (xs : list R) : result R :=
  match xs with
  | [] => Raise RuntimeError
  | x :: xs' => Ok (fold_left Rmax xs' x)
  end.

(** [torch.linalg.matrix_norm(A, ord=float('inf'))]: the absolute values are
    summed along each row and the largest sum is taken. *)
Definition matrix_norm_inf (A : matrix) : result R :=
  amax (map (row_abs_sum (entries A) (ncols A)) (seq 0 (nrows A))).

(** [v*A/norm_inf_A]: every entry is multiplied by the Python float [v] and
    the product divided by the norm. *)
Definition rescale (v : R) (A : matrix) (norm_inf_A : R) : matrix :=
  mkMatrix (nrows A) (ncols A)
    (map (fun a => v * a / norm_inf_A) (entries A))
    (mdtype A) (mdevice A).

(** [project_onto_Linf_ball(self, A, v)]: [ImplicitModelLoRA] (lines
    106-112) and [ImplicitModelLoRA2] (185-191) define the same method, which
    does not read [self]; both classes use this one definition. *)
Definition project_onto_Linf_ball (A : matrix) (v : R) : result matrix :=
  norm_inf_A <- matrix_norm_inf A ;;
  if Rgt_dec norm_inf_A v
  then Ok (rescale v A norm_inf_A)
  else Ok A.

(** ** Random initialisation *)

(** torch's global generator: the sequence of standard normal draws it will
    hand out and how many of them have been consumed. *)
Record generator : Type := mkGenerator {
  draws : nat -> R;
  consumed : nat
}.

(** [torch.randn(r, c)]. *)
Definition randn (g : generator) (r c : nat) : matrix * generator :=
  (mkMatrix r c (map (draws g) (seq (consumed g) (r * c)%nat))
            default_dtype default_device,
   mkGenerator (draws g) (consumed g + r * c)%nat).

(** [torch.randn(n)]: a rank-1 tensor. *)
Definition randn1 (g : generator) (n : nat) : tensor * generator :=
  (mkTensor [n] (map (draws g) (seq (consumed g) n))
            default_dtype default_device,
   mkGenerator (draws g) (consumed g + n)%nat).

(** [M / n] with [n] a Python int. *)
Definition div_int (M : matrix) (n : nat) : matrix :=
  mkMatrix (nrows M) (ncols M) (map (fun a => a / INR n) (entries M))
           (mdtype M) (mdevice M).

Definition tdiv_int (X : tensor) (n : nat) : tensor :=
  mkTensor (shape X) (map (fun a => a / INR n) (data X))
           (dtype_of X) (device_of X).

(** ** Module attributes *)

(** What a tensor-valued attribute of an [nn.Module] holds: a registered
    [nn.Parameter], which [parameters()] lists and an optimizer updates, or
    a plain tensor. *)
Inductive attribute (T : Type) : Type :=
| nn_Parameter (t : T)
| plain_Tensor (t : T).
Arguments nn_Parameter {T} t.
Arguments plain_Tensor {T} t.

Definition value {T : Type} (a : attribute T) : T :=
  match a with
  | nn_Parameter t => t
  | plain_Tensor t => t
  end.

Definition registered {T : Type} (a : attribute T) : list T :=
  match a with
  | nn_Parameter t => [t]
  | plain_Tensor _ => []
  end.

(** [nn.Module.__setattr__] (torch/nn/modules/module.py), which every
    assignment [self.name = new] in a class derived from [nn.Module] goes
    through, on a tensor-valued attribute that already holds [old].  A value
    that is an [nn.Parameter] is registered under the name.  A value that is
    not one is refused when the name is that of a registered parameter:
    torch raises TypeError (cannot assign a tensor as parameter; a
    torch.nn.Parameter or None is expected).  Otherwise the value is stored
    as it is. *)
Definition setattr {T : Type} (old new : attribute T) : result (attribute T) :=
  match new, old with
  | nn_Parameter _, _ => Ok new
  | plain_Tensor _, nn_Parameter _ => Raise TypeError
  | plain_Tensor _, plain_Tensor _ => Ok new
  end.

(** The implicit function [f]: [f.apply(A, B, X0, U)]. *)
Definition ImplicitFunction : Type :=
  matrix -> matrix -> matrix -> matrix -> result matrix.

(** ** Statements that may write to [self] *)

(** A method body run on the module state [S]: the state it leaves, and the
    value it returns or the exception it raises.  A write made before an
    exception stays made. *)
Definition method (S A : Type) : Type := S -> S * result A.

Definition ret {S A : Type} (a : A) : method S A := fun s => (s, Ok a).

Definition lift {S A : Type} (c : result A) : method S A := fun s => (s, c).

(** Reading [self]. *)
Definition get {S : Type} : method S S := fun s => (s, Ok s).

Definition mbind {S A B : Type} (c : method S A) (k : A -> method S B)
  : method S B :=
  fun s =>
    match c s with
    | (s', Ok a) => k a s'
    | (s', Raise e) => (s', Raise e)
    end.

Declare Scope method_scope.
Delimit Scope method_scope with method.
Notation "x <~ c ;; k" := (mbind c (fun x => k))
  (at level 61, c at next level, right associativity) : method_scope.
Notation "c ;;; k" := (mbind c (fun _ => k))
  (at level 61, right associativity) : method_scope.

(** ** The opening of [forward] *)

Definition string_of_nat (n : nat) : string :=
  NilEmpty.string_of_uint (Nat.to_uint n).

(** [assert cond, msg]. *)
Definition assert (cond : bool) (msg : string) : result unit :=
  if cond then Ok tt else Raise (AssertionError msg).

Definition size_eqb (M : matrix) (X_shape : nat * nat) : bool :=
  Nat.eqb (nrows M) (fst X_shape) && Nat.eqb (ncols M) (snd X_shape).

(** The three [forward] methods open with the same lines (47-61 in
    [ImplicitModel], 115-129 in [ImplicitModelLoRA], 194-208 in
    [ImplicitModelLoRA2]); they are embedded once, in three steps. *)

(** Lines 47-51: [U] is flattened when it has three dimensions, transposed,
    and padded with a row of ones under [bias]. *)
Definition input_U (bias : bool) (U : tensor) : result matrix :=
  let U := if Nat.eqb (List.length (shape U)) 3 then flatten_1 U else U in
  U <- transpose U ;;
  Ok (if bias then pad_row_of_ones U else U).

(** The message of the assertion of line 52. *)
Definition input_size_message (given expected : nat) : string :=
  ("Given input size " ++ string_of_nat given
   ++ " does not match expected input size " ++ string_of_nat expected
   ++ ".")%string.

(** Lines 57-61: a given [X0] is transposed and checked against [X_shape];
    without one, zeros of that shape are created with the element type and
    device of [U]. *)
Definition initial_X0 (X_shape : nat * nat) (U : matrix)
    (X0 : option tensor) : result matrix :=
  match X0 with
  | Some X0 =>
      X0 <- transpose X0 ;;
      _ <- assert (size_eqb X0 X_shape) EmptyString ;;
      Ok X0
  | None => Ok (zeros (fst X_shape) (snd X_shape) (mdtype U) (mdevice U))
  end.

(** Lines 47-61 as a whole; the value is the pair of [U] and [X0] the rest
    of the body goes on with. *)
Definition forward_inputs (n p : nat) (bias : bool)
    (U : tensor) (X0 : option tensor) : result (matrix * matrix) :=
  U <- input_U bias U ;;
  _ <- assert (Nat.eqb (nrows U) p) (input_size_message (nrows U) p) ;;
  let m := ncols U in
  let X_shape := (n, m) in
  X0 <- initial_X0 X_shape U X0 ;;
  Ok (U, X0).

(** [transpose(self.C @ X + self.D @ U)], the last line of each [forward]. *)
Definition forward_output (C D X U : matrix) : result matrix :=
  CX <- matmul C X ;;
  DU <- matmul D U ;;
  Y <- add CX DU ;;
  Ok (transpose_matrix Y).

(** ** Well-formed module states and the contract of the solver *)

Definition has_kind (dt : dtype) (dv : device) (M : matrix) : Prop :=
  mdtype M = dt /\ mdevice M = dv.

(** What the spec asks of the implicit function: on a square [A] and on
    [B], [X0], [U] whose sizes fit it and which share its element type and
    device, [f.apply] returns a matrix of the size of [X0], of that element
    type and on that device. *)
Definition solver_contract (f : ImplicitFunction) : Prop :=
  forall (A B X0 U : matrix) (n p m : nat) (dt : dtype) (dv : device),
    size A = (n, n) -> size B = (n, p) ->
    size X0 = (n, m) -> size U = (p, m) ->
    Forall (has_kind dt dv) [A; B; X0; U] ->
    exists X, f A B X0 U = Ok X /\ size X = (n, m) /\ has_kind dt dv X.

(** ** class ImplicitModel *)

Module ImplicitModel.

Record t : Type := mk {
  n : nat;
  p : nat;
  q : nat;
  A : matrix;
  B : matrix;
  C : matrix;
  D : attribute matrix;
  f : ImplicitFunction;
  bias : bool
}.

(** [A], [B] and [C] are always [nn.Parameter]s; [D] is one unless the
    model was built with [no_D]. *)
Definition parameters (self : t) : list matrix :=
  [A self; B self; C self] ++ registered (D self).

Definition __init__ (g : generator) (n p q : nat) (f : ImplicitFunction)
    (no_D bias : bool) : t * generator :=
  let p := if bias then (p + 1)%nat else p in
  let (A, g) := randn g n n in
  let (B, g) := randn g n p in
  let (C, g) := randn g q n in
  let (D, g) :=
    if negb no_D
    then let (D, g) := randn g q p in (nn_Parameter (div_int D n), g)
    else (plain_Tensor (zeros q p default_dtype default_device), g) in
  (mk n p q (div_int A n) (div_int B n) (div_int C n) D f bias, g).

Definition forward (U : tensor) (X0 : option tensor) : method t matrix :=
  fun self =>
    lift (UX <- forward_inputs (n self) (p self) (bias self) U X0 ;;
          let (U, X0) := UX in
          X <- f self (A self) (B self) X0 U ;;
          forward_output (C self) (value (D self)) X U) self.

Definition with_D (D' : attribute matrix) (self : t) : t :=
  mk (n self) (p self) (q self) (A self) (B self) (C self) D'
     (f self) (bias self).

(** The attributes have the sizes [__init__] gives them, one element type
    and one device. *)
Definition well_formed (dt : dtype) (dv : device) (self : t) : Prop :=
  size (A self) = (n self, n self)
  /\ size (B self) = (n self, p self)
  /\ size (C self) = (q self, n self)
  /\ size (value (D self)) = (q self, p self)
  /\ Forall (has_kind dt dv) [A self; B self; C self; value (D self)].

End ImplicitModel.

(** ** class ImplicitModelLoRA *)

Module ImplicitModelLoRA.

(** The attribute [R] of the source is [R_] here: [R] names the reals. *)
Record t : Type := mk {
  k : nat;
  n : nat;
  p : nat;
  q : nat;
  L : matrix;
  R_ : matrix;
  B : matrix;
  C : matrix;
  D : attribute matrix;
  f : ImplicitFunction;
  bias : bool
}.

Definition parameters (self : t) : list matrix :=
  [L self; R_ self; B self; C self] ++ registered (D self).

Definition __init__ (g : generator) (k n p q : nat) (f : ImplicitFunction)
    (no_D bias : bool) : t * generator :=
  let p := if bias then (p + 1)%nat else p in
  let (L, g) := randn g n k in
  let (R_, g) := randn g n k in
  let (B, g) := randn g n p in
  let (C, g) := randn g q n in
  let (D, g) :=
    if negb no_D
    then let (D, g) := randn g q p in (nn_Parameter (div_int D n), g)
    else (plain_Tensor (zeros q p default_dtype default_device), g) in
  (mk k n p q (div_int L n) (div_int R_ n) (div_int B n) (div_int C n)
      D f bias, g).

(** Lines 131-132 and the product of line 134. *)
Definition A_eff (self : t) : result matrix :=
  L_projected <- project_onto_Linf_ball (L self) 0.97 ;;
  RT_projected <- project_onto_Linf_ball (transpose_matrix (R_ self)) 0.97 ;;
  matmul L_projected RT_projected.

Definition forward (U : tensor) (X0 : option tensor) : method t matrix :=
  fun self =>
    lift (UX <- forward_inputs (n self) (p self) (bias self) U X0 ;;
          let (U, X0) := UX in
          A <- A_eff self ;;
          X <- f self A (B self) X0 U ;;
          forward_output (C self) (value (D self)) X U) self.

Definition with_D (D' : attribute matrix) (self : t) : t :=
  mk (k self) (n self) (p self) (q self) (L self) (R_ self) (B self)
     (C self) D' (f self) (bias self).

(** The attributes have the sizes [__init__] gives them for positive [n]
    and [k], one element type and one device. *)
Definition well_formed (dt : dtype) (dv : device) (self : t) : Prop :=
  (0 < n self)%nat /\ (0 < k self)%nat
  /\ size (L self) = (n self, k self)
  /\ size (R_ self) = (n self, k self)
  /\ size (B self) = (n self, p self)
  /\ size (C self) = (q self, n self)
  /\ size (value (D self)) = (q self, p self)
  /\ Forall (has_kind dt dv)
       [L self; R_ self; B self; C self; value (D self)].

End ImplicitModelLoRA.

(** ** class ImplicitModelLoRA2 *)

(** [torch.diag] of a rank-1 tensor: the square matrix with it on the
    diagonal.  (Of a rank-2 tensor it is the rank-1 diagonal, which
    [matrix_norm] then refuses; any other rank [torch.diag] refuses itself:
    [RuntimeError] in each case.) *)
Definition torch_diag (X : tensor) : result matrix :=
  match shape X with
  | [k] =>
      Ok (mkMatrix k k
            (flat_map (fun i =>
               map (fun j => if Nat.eqb i j then nth i (data X) 0 else 0)
                   (seq 0 k))
               (seq 0 k))
            (dtype_of X) (device_of X))
  | _ => Raise RuntimeError
  end.

(** The single entry of a one-element tensor, as the truth value of
    [torch.abs(X) > kappa] in an [if] needs it: a tensor with another number
    of elements has no truth value. *)
Definition item (X : tensor) : result R :=
  match data X with
  | [d] => Ok d
  | _ => Raise RuntimeError
  end.

(** A tensor of rank at most 2 seen as a matrix for broadcasting against a
    matrix (missing leading dimensions count as 1).  A higher rank, which
    [__init__] never gives [Diag], is refused here. *)
Definition broadcast_matrix (X : tensor) : result matrix :=
  match shape X with
  | [] => Ok (mkMatrix 1 1 (data X) (dtype_of X) (device_of X))
  | [c] => Ok (mkMatrix 1 c (data X) (dtype_of X) (device_of X))
  | [r; c] => Ok (mkMatrix r c (data X) (dtype_of X) (device_of X))
  | _ => Raise RuntimeError
  end.

Module ImplicitModelLoRA2.

Record t : Type := mk {
  k : nat;
  n : nat;
  p : nat;
  q : nat;
  L : matrix;
  R_ : matrix;
  diag : bool;
  Diag : attribute tensor;
  B : matrix;
  C : matrix;
  D : attribute matrix;
  f : ImplicitFunction;
  bias : bool
}.

Definition parameters (self : t) : list tensor :=
  [as_tensor (L self); as_tensor (R_ self)] ++ registered (Diag self)
  ++ [as_tensor (B self); as_tensor (C self)]
  ++ map as_tensor (registered (D self)).

Definition __init__ (g : generator) (k n p q : nat) (f : ImplicitFunction)
    (no_D bias diag : bool) : t * generator :=
  let p := if bias then (p + 1)%nat else p in
  let (L, g) := randn g n k in
  let (R_, g) := randn g n k in
  let (Diag, g) :=
    if diag
    then let (Diag, g) := randn1 g n in (tdiv_int Diag n, g)
    else let (Diag, g) := randn g 1 1 in (as_tensor (div_int Diag n), g) in
  let (B, g) := randn g n p in
  let (C, g) := randn g q n in
  let (D, g) :=
    if negb no_D
    then let (D, g) := randn g q p in (nn_Parameter (div_int D n), g)
    else (plain_Tensor (zeros q p default_dtype default_device), g) in
  (mk k n p q (div_int L n) (div_int R_ n) diag (nn_Parameter Diag)
      (div_int B n) (div_int C n) D f bias, g).

Definition kappa : R := 0.95.
Definition kapp_diag : R := 0.45.

(** [kappa * self.Diag/(self.Diag + 1e-10)], the right-hand side of line
    216: the result of arithmetic on a parameter is a plain tensor, not an
    [nn.Parameter]; it has the shape of [Diag]. *)
Definition rescaled_Diag (Diag : tensor) : tensor :=
  mkTensor (shape Diag)
    (map (fun d => kappa * d / (d + 1e-10)) (data Diag))
    (dtype_of Diag) (device_of Diag).

(** [self.Diag = new] of line 216.  [__init__] stores [Diag] as an
    [nn.Parameter] (lines 174 and 176), so the name is that of a registered
    parameter when [forward] runs; the assignment goes through
    [nn.Module.__setattr__]. *)
Definition set_Diag (new : attribute tensor) : method t unit :=
  fun self =>
    match setattr (Diag self) new with
    | Ok a =>
        (mk (k self) (n self) (p self) (q self) (L self) (R_ self)
            (diag self) a (B self) (C self) (D self) (f self) (bias self),
         Ok tt)
    | Raise e => (self, Raise e)
    end.

Local Open Scope method_scope.

(** Lines 212-217: the diagonal term [Diag_projected]. *)
Definition Diag_projected : method t matrix :=
  self <~ get ;;
  if diag self then
    lift (M <- torch_diag (value (Diag self)) ;;
          project_onto_Linf_ball M kapp_diag)%result
  else
    d <~ lift (item (value (Diag self))) ;;
    (if Rgt_dec (Rabs d) kappa
     then set_Diag (plain_Tensor (rescaled_Diag (value (Diag self))))
     else ret tt) ;;;
    self <~ get ;;
    lift (M <- broadcast_matrix (value (Diag self)) ;;
          mul M (eye (n self)))%result.

(** Lines 218-219: the two projected factors. *)
Definition projected_factors (self : t) : result (matrix * matrix) :=
  (L_projected <-
     project_onto_Linf_ball (L self) (sqrt (kappa - kapp_diag)) ;;
   RT_projected <-
     project_onto_Linf_ball (transpose_matrix (R_ self))
                            (sqrt (kappa - kapp_diag)) ;;
   Ok (L_projected, RT_projected))%result.

(** [Diag_projected + L_projected @ RT_projected] of line 221. *)
Definition A_eff (Diag_projected : matrix) (LR : matrix * matrix)
  : result matrix :=
  (P <- matmul (fst LR) (snd LR) ;; add Diag_projected P)%result.

Definition forward (U : tensor) (X0 : option tensor) : method t matrix :=
  self <~ get ;;
  UX <~ lift (forward_inputs (n self) (p self) (bias self) U X0) ;;
  Diag_projected <~ Diag_projected ;;
  self <~ get ;;
  LR <~ lift (projected_factors self) ;;
  A <~ lift (A_eff Diag_projected LR) ;;
  X <~ lift (f self A (B self) (snd UX) (fst UX)) ;;
  lift (forward_output (C self) (value (D self)) X (fst UX)).

Definition with_D (D' : attribute matrix) (self : t) : t :=
  mk (k self) (n self) (p self) (q self) (L self) (R_ self) (diag self)
     (Diag self) (B self) (C self) D' (f self) (bias self).

(** The attributes have the sizes [__init__] gives them for positive [n]
    and [k], one element type and one device; [Diag] is the registered
    parameter [__init__] makes it, a vector of length [n] under [diag] and
    a 1 x 1 matrix otherwise. *)
Definition well_formed (dt : dtype) (dv : device) (self : t) : Prop :=
  (0 < n self)%nat /\ (0 < k self)%nat
  /\ size (L self) = (n self, k self)
  /\ size (R_ self) = (n self, k self)
  /\ (exists Dg, Diag self = nn_Parameter Dg
                 /\ shape Dg = (if diag self then [n self] else [1; 1]%nat)
                 /\ (diag self = false -> exists d, data Dg = [d])
                 /\ dtype_of Dg = dt /\ device_of Dg = dv)
  /\ size (B self) = (n self, p self)
  /\ size (C self) = (q self, n self)
  /\ size (value (D self)) = (q self, p self)
  /\ Forall (has_kind dt dv)
       [L self; R_ self; B self; C self; value (D self)].

End ImplicitModelLoRA2.

(** ** The three variants as one type *)

(** A model of any of the three classes; [forward] dispatches on the
    class. *)
Inductive model : Type :=
| Dense (self : ImplicitModel.t)
| LowRank (self : ImplicitModelLoRA.t)
| LowRankDiag (self : ImplicitModelLoRA2.t).

Definition hidden_width (s : model) : nat :=
  match s with
  | Dense self => ImplicitModel.n self
  | LowRank self => ImplicitModelLoRA.n self
  | LowRankDiag self => ImplicitModelLoRA2.n self
  end.

(** [self.p]: the input width, the bias row included. *)
Definition input_width (s : model) : nat :=
  match s with
  | Dense self => ImplicitModel.p self
  | LowRank self => ImplicitModelLoRA.p self
  | LowRankDiag self => ImplicitModelLoRA2.p self
  end.

Definition output_width (s : model) : nat :=
  match s with
  | Dense self => ImplicitModel.q self
  | LowRank self => ImplicitModelLoRA.q self
  | LowRankDiag self => ImplicitModelLoRA2.q self
  end.

Definition uses_bias (s : model) : bool :=
  match s with
  | Dense self => ImplicitModel.bias self
  | LowRank self => ImplicitModelLoRA.bias self
  | LowRankDiag self => ImplicitModelLoRA2.bias self
  end.

(** The row [bias] adds to the input width. *)
Definition bias_rows (s : model) : nat := if uses_bias s then 1 else 0.

Definition solver (s : model) : ImplicitFunction :=
  match s with
  | Dense self => ImplicitModel.f self
  | LowRank self => ImplicitModelLoRA.f self
  | LowRankDiag self => ImplicitModelLoRA2.f self
  end.

Definition B_of (s : model) : matrix :=
  match s with
  | Dense self => ImplicitModel.B self
  | LowRank self => ImplicitModelLoRA.B self
  | LowRankDiag self => ImplicitModelLoRA2.B self
  end.

Definition C_of (s : model) : matrix :=
  match s with
  | Dense self => ImplicitModel.C self
  | LowRank self => ImplicitModelLoRA.C self
  | LowRankDiag self => ImplicitModelLoRA2.C self
  end.

Definition D_of (s : model) : attribute matrix :=
  match s with
  | Dense self => ImplicitModel.D self
  | LowRank self => ImplicitModelLoRA.D self
  | LowRankDiag self => ImplicitModelLoRA2.D self
  end.

Definition with_D (D' : attribute matrix) (s : model) : model :=
  match s with
  | Dense self => Dense (ImplicitModel.with_D D' self)
  | LowRank self => LowRank (ImplicitModelLoRA.with_D D' self)
  | LowRankDiag self => LowRankDiag (ImplicitModelLoRA2.with_D D' self)
  end.

(** A method of one class run on a [model]. *)
Definition on_variant {S A : Type} (inj : S -> model) (c : method S A)
    (self : S) : model * result A :=
  let (self', r) := c self in (inj self', r).

Definition forward (U : tensor) (X0 : option tensor) : method model matrix :=
  fun s =>
    match s with
    | Dense self => on_variant Dense (ImplicitModel.forward U X0) self
    | LowRank self => on_variant LowRank (ImplicitModelLoRA.forward U X0) self
    | LowRankDiag self =>
        on_variant LowRankDiag (ImplicitModelLoRA2.forward U X0) self
    end.

Definition well_formed (dt : dtype) (dv : device) (s : model) : Prop :=
  match s with
  | Dense self => ImplicitModel.well_formed dt dv self
  | LowRank self => ImplicitModelLoRA.well_formed dt dv self
  | LowRankDiag self => ImplicitModelLoRA2.well_formed dt dv self
  end.

(** In [ImplicitModelLoRA2] without [diag], the scalar [Diag] lies within
    [kappa], and the model has the element type and device [torch.eye]
    works with: the default device, and an element type that promotion with
    the default one leaves as it is.  The other variants ask nothing. *)
Definition scalar_Diag_within (dt : dtype) (dv : device) (s : model) : Prop :=
  match s with
  | LowRankDiag self =>
      ImplicitModelLoRA2.diag self = false ->
      (forall d, data (value (ImplicitModelLoRA2.Diag self)) = [d] ->
                 Rabs d <= ImplicitModelLoRA2.kappa)
      /\ dv = default_device
      /\ promote_types dt default_dtype = dt
  | _ => True
  end.

(** [D] forced to all zeros, still a parameter. *)
Definition zero_D (s : model) : model :=
  with_D (nn_Parameter (zeros (nrows (value (D_of s))) (ncols (value (D_of s)))
                          (mdtype (value (D_of s))) (mdevice (value (D_of s)))))
         s.

(** [Diag] is a registered parameter, as [__init__] leaves it; the classes
    without [Diag] ask nothing. *)
Definition Diag_registered (s : model) : Prop :=
  match s with
  | LowRankDiag self => exists Dg, ImplicitModelLoRA2.Diag self = nn_Parameter Dg
  | _ => True
  end.

(** ** Example inputs *)

(** The 1 x 2 matrix [[3, -1]], of infinity norm 4. *)
Definition M_3_m1 : matrix := mkMatrix 1 2 [3; -1] float32 cpu.


(** A generator whose draws are 0, 1, 2, ... *)
Definition counting : generator := mkGenerator INR 0.

(** An implicit function that hands back [X0], with the element type and
    device of [A]. *)
Definition returns_X0 : ImplicitFunction :=
  fun A B X0 U =>
    Ok (mkMatrix (nrows X0) (ncols X0) (entries X0) (mdtype A) (mdevice A)).

Definition scalar_matrix (a : R) : matrix := mkMatrix 1 1 [a] float32 cpu.


(** The same with bias: [self.p] is 2. *)
Definition dense_bias : ImplicitModel.t :=
  ImplicitModel.mk 1 2 1 (scalar_matrix 0.5)
    (mkMatrix 1 2 [1; 1] float32 cpu) (scalar_matrix 1)
    (nn_Parameter (mkMatrix 1 2 [1; 1] float32 cpu)) returns_X0 true.

(** Inputs: a batch of one with one feature, a batch of one with two time
    steps of one feature, and an initial state for two hidden features. *)
Definition U_1x1 : tensor := mkTensor [1; 1]%nat [2] float32 cpu.
Definition U_1x2x1 : tensor := mkTensor [1; 2; 1]%nat [2; 3] float32 cpu.


Definition lora2_scalar (d : R) : ImplicitModelLoRA2.t :=
  ImplicitModelLoRA2.mk 1 1 1 1 (scalar_matrix 10) (scalar_matrix 20) false
    (nn_Parameter (mkTensor [1; 1]%nat [d] float32 cpu))
    (scalar_matrix 1) (scalar_matrix 1) (nn_Parameter (scalar_matrix 1))
    returns_X0 false.


(** The end-to-end scenario: the dense model [__init__] builds for n = 4,
    p = 3, q = 2 without bias, and a batch of five inputs. *)
Definition dense_432 : ImplicitModel.t :=
  fst (ImplicitModel.__init__ counting 4 3 2 returns_X0 false false).

Definition U_5x3 : tensor :=
  mkTensor [5; 3]%nat (map INR (seq 0 15)) float32 cpu.

(** ** Storage *)

(** A torch tensor holds exactly one entry per position: the storage of an
    r x c matrix has r * c entries. *)
Definition well_stored (M : matrix) : Prop :=
  List.length (entries M) = (nrows M * ncols M)%nat.

(** ** More example inputs *)


(** An implicit function that never converges. *)
Definition diverges : ImplicitFunction :=
  fun A B X0 U => Raise (SolverError 1).

(** [dense_111] with that solver. *)
Definition dense_diverging : ImplicitModel.t :=
  ImplicitModel.mk 1 1 1 (scalar_matrix 0.5) (scalar_matrix 1)
    (scalar_matrix 1) (nn_Parameter (scalar_matrix 1)) diverges false.




(** A low-rank-plus-diagonal model with a scalar [Diag], all of whose
    parameters have been moved to the first CUDA device. *)
Definition cuda_matrix (a : R) : matrix := mkMatrix 1 1 [a] float32 (cuda 0).

Definition lora2_scalar_cuda (d : R) : ImplicitModelLoRA2.t :=
  ImplicitModelLoRA2.mk 1 1 1 1 (cuda_matrix 10) (cuda_matrix 20) false
    (nn_Parameter (mkTensor [1; 1]%nat [d] float32 (cuda 0)))
    (cuda_matrix 1) (cuda_matrix 1) (nn_Parameter (cuda_matrix 1))
    returns_X0 false.

Definition U_1x1_cuda : tensor := mkTensor [1; 1]%nat [2] float32 (cuda 0).

(** * Properties *)

(** ** The projection onto the infinity-norm ball *)

Section Projection.

Lemma row_abs_sum_nonneg (d : list R) (c i : nat) : 0 <= row_abs_sum d c i.
Proof.
  unfold row_abs_sum.
  induction (seq 0 c) as [|j js IH]; simpl.
  - lra.
  - pose proof (Rabs_pos (nth (i * c + j) d 0)). lra.
Qed.

Lemma sum_scale (s : R) (h : nat -> R) (js : list nat) :
  fold_right Rplus 0 (map (fun j => s * h j) js)
  = s * fold_right Rplus 0 (map h js).
Proof.
  induction js as [|j js IH]; simpl.
  - ring.
  - rewrite IH. ring.
Qed.

Lemma nth_map_zero (g : R -> R) (d : list R) (i : nat) :
  g 0 = 0 -> nth i (map g d) 0 = g (nth i d 0).
Proof.
  intros Hg. rewrite <- Hg at 1. apply map_nth.
Qed.

Lemma row_abs_sum_scale (s : R) (d : list R) (c i : nat) :
  0 <= s ->
  row_abs_sum (map (fun a => s * a) d) c i = s * row_abs_sum d c i.
Proof.
  intros Hs. unfold row_abs_sum.
  rewrite <- sum_scale. f_equal.
  apply map_ext. intros j.
  rewrite (nth_map_zero (fun a => s * a)) by ring.
  rewrite Rabs_mult, (Rabs_right s) by lra. reflexivity.
Qed.

Lemma fold_left_Rmax_scale (s : R) (xs : list R) (x : R) :
  0 <= s ->
  fold_left Rmax (map (fun y => s * y) xs) (s * x)
  = s * fold_left Rmax xs x.
Proof.
  intros Hs. revert x.
  induction xs as [|y ys IH]; intros x; simpl.
  - reflexivity.
  - rewrite RmaxRmult by assumption. apply IH.
Qed.

Lemma fold_left_Rmax_ge (xs : list R) (x : R) : x <= fold_left Rmax xs x.
Proof.
  revert x. induction xs as [|y ys IH]; intros x; simpl.
  - lra.
  - eapply Rle_trans; [apply (Rmax_l x y) | apply IH].
Qed.

(** The norm exists as soon as the matrix has a row, and is not negative. *)
Lemma matrix_norm_inf_defined (A : matrix) :
  (0 < nrows A)%nat -> exists nrm, matrix_norm_inf A = Ok nrm /\ 0 <= nrm.
Proof.
  intros Hr. unfold matrix_norm_inf.
  destruct (nrows A) as [|r]; [lia|].
  simpl. eexists. split; [reflexivity|].
  eapply Rle_trans; [apply row_abs_sum_nonneg | apply fold_left_Rmax_ge].
Qed.


Lemma rescale_entries (v nrm : R) (A : matrix) :
  entries (rescale v A nrm) = map (fun a => v / nrm * a) (entries A).
Proof.
  simpl. apply map_ext. intros a. unfold Rdiv. ring.
Qed.

(** Rescaling by [v / nrm] multiplies the norm by that factor. *)
Lemma matrix_norm_inf_rescale (v nrm x : R) (A : matrix) :
  0 <= v / nrm ->
  matrix_norm_inf A = Ok x ->
  matrix_norm_inf (rescale v A nrm) = Ok (v / nrm * x).
Proof.
  intros Hs HA. unfold matrix_norm_inf in *.
  rewrite rescale_entries. simpl nrows. simpl ncols.
  destruct (nrows A) as [|r]; [discriminate|].
  simpl in *. injection HA as HA. subst x. f_equal.
  rewrite (row_abs_sum_scale _ _ _ _ Hs).
  rewrite <- fold_left_Rmax_scale by assumption.
  f_equal. rewrite map_map. apply map_ext. intros i.
  apply row_abs_sum_scale. assumption.
Qed.

Lemma project_inside (A : matrix) (v nrm : R) :
  matrix_norm_inf A = Ok nrm -> nrm <= v ->
  project_onto_Linf_ball A v = Ok A.
Proof.
  intros HA Hle. unfold project_onto_Linf_ball. rewrite HA. simpl.
  destruct (Rgt_dec nrm v); [lra | reflexivity].
Qed.

Lemma project_outside (A : matrix) (v nrm : R) :
  matrix_norm_inf A = Ok nrm -> nrm > v ->
  project_onto_Linf_ball A v = Ok (rescale v A nrm).
Proof.
  intros HA Hgt. unfold project_onto_Linf_ball. rewrite HA. simpl.
  destruct (Rgt_dec nrm v); [reflexivity | lra].
Qed.

Lemma factor_pos (v nrm : R) : 0 < v -> nrm > v -> 0 < v / nrm.
Proof.
  intros Hv Hgt. apply Rdiv_lt_0_compat; lra.
Qed.

(** What the projection returns and the norm of what it returns. *)
Lemma project_spec (A : matrix) (v nrm : R) :
  0 < v -> matrix_norm_inf A = Ok nrm ->
  exists P,
    project_onto_Linf_ball A v = Ok P
    /\ matrix_norm_inf P = Ok (Rmin nrm v)
    /\ size P = size A.
Proof.
  intros Hv HA.
  destruct (Rle_or_lt nrm v) as [Hle | Hgt].
  - exists A. rewrite (project_inside A v nrm HA Hle).
    rewrite Rmin_left by assumption. auto.
  - exists (rescale v A nrm).
    rewrite (project_outside A v nrm HA Hgt).
    pose proof (factor_pos v nrm Hv Hgt) as Hs.
    rewrite (matrix_norm_inf_rescale v nrm nrm A) by (assumption || lra).
    rewrite Rmin_right by lra.
    repeat split. f_equal. field. lra.
Qed.

End Projection.






(** ** Sizes through the matrix operations *)

Lemma dtype_eqb_refl (a : dtype) : dtype_eqb a a = true.
Proof. destruct a; reflexivity. Qed.

Lemma device_eqb_refl (a : device) : device_eqb a a = true.
Proof. destruct a; simpl; [reflexivity | apply Nat.eqb_refl]. Qed.

Lemma promote_types_refl (a : dtype) : promote_types a a = a.
Proof. destruct a; reflexivity. Qed.

Lemma broadcast_dim_refl (a : nat) : broadcast_dim a a = Some a.
Proof. unfold broadcast_dim. rewrite Nat.eqb_refl. reflexivity. Qed.

Lemma matmul_ok (dt : dtype) (dv : device) (A B : matrix) :
  ncols A = nrows B -> has_kind dt dv A -> has_kind dt dv B ->
  exists P, matmul A B = Ok P
            /\ size P = (nrows A, ncols B) /\ has_kind dt dv P.
Proof.
  intros Hin [HdA HvA] [HdB HvB]. unfold matmul.
  rewrite Hin, Nat.eqb_refl, HdA, HdB, HvA, HvB.
  rewrite dtype_eqb_refl, device_eqb_refl. simpl.
  eexists. repeat split.
Qed.

Lemma add_ok (dt : dtype) (dv : device) (A B : matrix) :
  size A = size B -> has_kind dt dv A -> has_kind dt dv B ->
  exists S, add A B = Ok S /\ size S = size A /\ has_kind dt dv S.
Proof.
  intros Hs [HdA HvA] [HdB HvB]. unfold size in Hs. injection Hs as Hr Hc.
  unfold add, pointwise.
  rewrite <- Hr, <- Hc, !broadcast_dim_refl, HvA, HvB, device_eqb_refl.
  eexists. repeat split; simpl.
  rewrite HdA, HdB. apply promote_types_refl.
Qed.

Lemma forward_output_ok (dt : dtype) (dv : device) (C D X U : matrix)
    (n p q m : nat) :
  size C = (q, n) -> size D = (q, p) -> size X = (n, m) -> size U = (p, m) ->
  Forall (has_kind dt dv) [C; D; X; U] ->
  exists Y, forward_output C D X U = Ok Y /\ size Y = (m, q).
Proof.
  intros HC HD HX HU Hk.
  unfold size in *.
  injection HC as HCr HCc. injection HD as HDr HDc.
  injection HX as HXr HXc. injection HU as HUr HUc.
  inversion Hk as [|? ? HkC Hk1]; subst.
  inversion Hk1 as [|? ? HkD Hk2]; subst.
  inversion Hk2 as [|? ? HkX Hk3]; subst.
  inversion Hk3 as [|? ? HkU _]; subst.
  unfold forward_output.
  destruct (matmul_ok dt dv C X) as [CX [E1 [S1 K1]]];
    [congruence | assumption | assumption |].
  destruct (matmul_ok dt dv D U) as [DU [E2 [S2 K2]]];
    [congruence | assumption | assumption |].
  rewrite E1. simpl. rewrite E2. simpl.
  destruct (add_ok dt dv CX DU) as [Y [E3 [S3 K3]]];
    [unfold size in *; congruence | assumption | assumption |].
  rewrite E3. simpl. eexists. split; [reflexivity|].
  unfold size in *. simpl. congruence.
Qed.

(** ** The opening lines of [forward] *)

(** The feature-major [U] of a rank-2 input. *)
Lemma input_U_rank2 (bias : bool) (U : tensor) (m p0 : nat) :
  shape U = [m; p0] ->
  exists U',
    input_U bias U = Ok U'
    /\ U' = (let Ut := transpose_matrix
                         (mkMatrix m p0 (data U) (dtype_of U) (device_of U)) in
             if bias then pad_row_of_ones Ut else Ut)
    /\ size U' = ((p0 + if bias then 1 else 0)%nat, m)
    /\ has_kind (dtype_of U) (device_of U) U'.
Proof.
  intros Hs. unfold input_U. rewrite Hs. simpl.
  unfold transpose, as_matrix. rewrite Hs. simpl.
  eexists. split; [reflexivity|]. split; [reflexivity|].
  destruct bias; simpl; unfold size; simpl; repeat split.
  f_equal. lia.
Qed.



(** Accepted input without [X0]. *)
Lemma forward_inputs_accept (n p : nat) (bias : bool) (U : tensor)
    (m p0 : nat) :
  shape U = [m; p0] -> p = (p0 + if bias then 1 else 0)%nat ->
  exists U',
    input_U bias U = Ok U'
    /\ forward_inputs n p bias U None
       = Ok (U', zeros n m (dtype_of U) (device_of U))
    /\ size U' = (p, m)
    /\ has_kind (dtype_of U) (device_of U) U'.
Proof.
  intros Hs Hp.
  destruct (input_U_rank2 bias U m p0 Hs) as [U' [E [_ [Hsz [Hd Hv]]]]].
  exists U'. split; [assumption|].
  unfold forward_inputs. rewrite E. simpl.
  unfold size in Hsz. injection Hsz as Hr Hc.
  rewrite Hr, <- Hp, Nat.eqb_refl. simpl.
  rewrite Hc, Hd, Hv. split; [reflexivity|].
  split; [unfold size; congruence | split; assumption].
Qed.


(** ** From the solver to the result *)


(** Lines 63-64 (134-135, 221-222) on arguments of fitting sizes. *)
Lemma solve_and_output_ok (f : ImplicitFunction) (dt : dtype) (dv : device)
    (A B C D X0 U : matrix) (n p q m : nat) :
  solver_contract f ->
  size A = (n, n) -> size B = (n, p) -> size C = (q, n) -> size D = (q, p) ->
  size X0 = (n, m) -> size U = (p, m) ->
  Forall (has_kind dt dv) [A; B; C; D; X0; U] ->
  exists Y, (X <- f A B X0 U ;; forward_output C D X U) = Ok Y
            /\ size Y = (m, q).
Proof.
  intros Hf HA HB HC HD HX0 HU Hk.
  repeat match goal with
         | H : Forall _ (_ :: _) |- _ =>
             let a := fresh "K" in
             let b := fresh "Hk" in
             inversion H as [|? ? a b]; subst; clear H
         end.
  destruct (Hf A B X0 U n p m dt dv) as [X [EX [SX KX]]]; auto.
  rewrite EX. simpl.
  apply (forward_output_ok dt dv C D X U n p q m); auto.
Qed.

(** The projection keeps the size, the element type and the device. *)
Lemma project_ok (dt : dtype) (dv : device) (A : matrix) (v : R) :
  (0 < nrows A)%nat -> 0 < v -> has_kind dt dv A ->
  exists P nrm,
    project_onto_Linf_ball A v = Ok P
    /\ size P = size A /\ has_kind dt dv P
    /\ matrix_norm_inf P = Ok nrm /\ nrm <= v.
Proof.
  intros Hr Hv Hk.
  destruct (matrix_norm_inf_defined A Hr) as [nrm [HA _]].
  destruct (project_spec A v nrm Hv HA) as [P [HP [HnP HsP]]].
  exists P, (Rmin nrm v). repeat split; try assumption.
  - unfold project_onto_Linf_ball in HP. rewrite HA in HP. simpl in HP.
    destruct (Rgt_dec nrm v); injection HP as <-; apply Hk.
  - unfold project_onto_Linf_ball in HP. rewrite HA in HP. simpl in HP.
    destruct (Rgt_dec nrm v); injection HP as <-; apply Hk.
  - apply Rmin_r.
Qed.

Lemma sqrt_budget_pos :
  0 < sqrt (ImplicitModelLoRA2.kappa - ImplicitModelLoRA2.kapp_diag).
Proof.
  apply sqrt_lt_R0.
  unfold ImplicitModelLoRA2.kappa, ImplicitModelLoRA2.kapp_diag. lra.
Qed.

(** ** [ImplicitModel.forward] on accepted input *)

Lemma ImplicitModel_forward_accept (self : ImplicitModel.t)
    (dt : dtype) (dv : device) (U : tensor) (m p0 : nat) :
  ImplicitModel.well_formed dt dv self ->
  solver_contract (ImplicitModel.f self) ->
  shape U = [m; p0] -> dtype_of U = dt -> device_of U = dv ->
  ImplicitModel.p self
  = (p0 + if ImplicitModel.bias self then 1 else 0)%nat ->
  exists U' Y,
    input_U (ImplicitModel.bias self) U = Ok U'
    /\ ImplicitModel.forward U None self
       = (self,
          X <- ImplicitModel.f self (ImplicitModel.A self)
                 (ImplicitModel.B self)
                 (zeros (ImplicitModel.n self) m dt dv) U' ;;
          forward_output (ImplicitModel.C self)
            (value (ImplicitModel.D self)) X U')
    /\ ImplicitModel.forward U None self = (self, Ok Y)
    /\ size Y = (m, ImplicitModel.q self).
Proof.
  intros [HA [HB [HC [HD Hk]]]] Hf Hs Hdt Hdv Hp.
  destruct (forward_inputs_accept (ImplicitModel.n self)
              (ImplicitModel.p self) (ImplicitModel.bias self) U m p0 Hs Hp)
    as [U' [EU [E [HsU HkU]]]].
  rewrite Hdt, Hdv in E, HkU.
  inversion Hk as [|? ? KA Hk1]; subst.
  inversion Hk1 as [|? ? KB Hk2]; subst.
  inversion Hk2 as [|? ? KC Hk3]; subst.
  inversion Hk3 as [|? ? KD _]; subst.
  destruct (solve_and_output_ok (ImplicitModel.f self)
              (dtype_of U) (device_of U)
              (ImplicitModel.A self) (ImplicitModel.B self)
              (ImplicitModel.C self) (value (ImplicitModel.D self))
              (zeros (ImplicitModel.n self) m (dtype_of U) (device_of U)) U'
              (ImplicitModel.n self) (ImplicitModel.p self)
              (ImplicitModel.q self) m)
    as [Y [EY HY]]; auto.
  { repeat constructor; try apply KA; try apply KB; try apply KC;
      try apply KD; try apply HkU. }
  exists U', Y. split; [assumption|].
  unfold ImplicitModel.forward, lift. rewrite E. simpl.
  split; [reflexivity|]. rewrite EY. split; [reflexivity | assumption].
Qed.

(** ** [ImplicitModelLoRA.forward] on accepted input *)

Lemma transpose_matrix_kind (dt : dtype) (dv : device) (M : matrix) :
  has_kind dt dv M ->
  size (transpose_matrix M) = (ncols M, nrows M)
  /\ has_kind dt dv (transpose_matrix M).
Proof. intros [Hd Hv]. repeat split; assumption. Qed.

(** Two factors of sizes n x k and k x n, projected and multiplied. *)
Lemma projected_product_ok (dt : dtype) (dv : device) (L RT : matrix)
    (v : R) (n k : nat) :
  (0 < n)%nat -> (0 < k)%nat -> 0 < v ->
  size L = (n, k) -> size RT = (k, n) ->
  has_kind dt dv L -> has_kind dt dv RT ->
  exists Lp RTp nL nR P,
    project_onto_Linf_ball L v = Ok Lp
    /\ project_onto_Linf_ball RT v = Ok RTp
    /\ matrix_norm_inf Lp = Ok nL /\ nL <= v
    /\ matrix_norm_inf RTp = Ok nR /\ nR <= v
    /\ matmul Lp RTp = Ok P
    /\ size P = (n, n) /\ has_kind dt dv P.
Proof.
  intros Hn Hk Hv HL HRT KL KRT.
  unfold size in HL, HRT. injection HL as HLr HLc. injection HRT as HRr HRc.
  destruct (project_ok dt dv L v) as [Lp [nL [EL [SL [KLp [NL BL]]]]]];
    [lia | assumption | assumption |].
  destruct (project_ok dt dv RT v) as [RTp [nR [ER [SR [KRp [NR BR]]]]]];
    [lia | assumption | assumption |].
  unfold size in SL, SR. injection SL as SLr SLc. injection SR as SRr SRc.
  destruct (matmul_ok dt dv Lp RTp) as [P [EP [SP KP]]];
    [congruence | assumption | assumption |].
  exists Lp, RTp, nL, nR, P. repeat split; try assumption; try apply KP.
  rewrite SP. f_equal; congruence.
Qed.

Lemma ImplicitModelLoRA_A_eff_ok (self : ImplicitModelLoRA.t)
    (dt : dtype) (dv : device) :
  ImplicitModelLoRA.well_formed dt dv self ->
  exists A, ImplicitModelLoRA.A_eff self = Ok A
            /\ size A = (ImplicitModelLoRA.n self, ImplicitModelLoRA.n self)
            /\ has_kind dt dv A.
Proof.
  intros [Hn [Hk [HL [HR [_ [_ [_ Hkind]]]]]]].
  inversion Hkind as [|? ? KL Hk1]; subst.
  inversion Hk1 as [|? ? KR _]; subst.
  destruct (transpose_matrix_kind dt dv (ImplicitModelLoRA.R_ self) KR)
    as [SRT KRT].
  unfold size in HR. injection HR as HRr HRc. rewrite HRr, HRc in SRT.
  assert (Hv : 0 < 0.97) by lra.
  destruct (projected_product_ok dt dv (ImplicitModelLoRA.L self)
              (transpose_matrix (ImplicitModelLoRA.R_ self)) 0.97
              (ImplicitModelLoRA.n self) (ImplicitModelLoRA.k self)
              Hn Hk Hv HL SRT KL KRT)
    as [Lp [RTp [nL [nR [P [EL [ER [_ [_ [_ [_ [EP [SP KP]]]]]]]]]]]]].
  exists P. unfold ImplicitModelLoRA.A_eff. rewrite EL. simpl.
  rewrite ER. simpl. auto.
Qed.

Lemma ImplicitModelLoRA_forward_accept (self : ImplicitModelLoRA.t)
    (dt : dtype) (dv : device) (U : tensor) (m p0 : nat) :
  ImplicitModelLoRA.well_formed dt dv self ->
  solver_contract (ImplicitModelLoRA.f self) ->
  shape U = [m; p0] -> dtype_of U = dt -> device_of U = dv ->
  ImplicitModelLoRA.p self
  = (p0 + if ImplicitModelLoRA.bias self then 1 else 0)%nat ->
  exists U' A Y,
    input_U (ImplicitModelLoRA.bias self) U = Ok U'
    /\ ImplicitModelLoRA.A_eff self = Ok A
    /\ ImplicitModelLoRA.forward U None self
       = (self,
          X <- ImplicitModelLoRA.f self A (ImplicitModelLoRA.B self)
                 (zeros (ImplicitModelLoRA.n self) m dt dv) U' ;;
          forward_output (ImplicitModelLoRA.C self)
            (value (ImplicitModelLoRA.D self)) X U')
    /\ ImplicitModelLoRA.forward U None self = (self, Ok Y)
    /\ size Y = (m, ImplicitModelLoRA.q self).
Proof.
  intros Hwf Hf Hs Hdt Hdv Hp.
  destruct (ImplicitModelLoRA_A_eff_ok self dt dv Hwf) as [A [EA [SA KA]]].
  destruct Hwf as [Hn [Hk [HL [HR [HB [HC [HD Hkind]]]]]]].
  destruct (forward_inputs_accept (ImplicitModelLoRA.n self)
              (ImplicitModelLoRA.p self) (ImplicitModelLoRA.bias self)
              U m p0 Hs Hp)
    as [U' [EU [E [HsU HkU]]]].
  rewrite Hdt, Hdv in E, HkU.
  inversion Hkind as [|? ? KL Hk1]; subst.
  inversion Hk1 as [|? ? KR Hk2]; subst.
  inversion Hk2 as [|? ? KB Hk3]; subst.
  inversion Hk3 as [|? ? KC Hk4]; subst.
  inversion Hk4 as [|? ? KD _]; subst.
  destruct (solve_and_output_ok (ImplicitModelLoRA.f self)
              (dtype_of U) (device_of U)
              A (ImplicitModelLoRA.B self)
              (ImplicitModelLoRA.C self) (value (ImplicitModelLoRA.D self))
              (zeros (ImplicitModelLoRA.n self) m (dtype_of U) (device_of U))
              U'
              (ImplicitModelLoRA.n self) (ImplicitModelLoRA.p self)
              (ImplicitModelLoRA.q self) m)
    as [Y [EY HY]]; auto.
  { repeat constructor; try apply KA; try apply KB; try apply KC;
      try apply KD; try apply HkU. }
  exists U', A, Y. split; [assumption|]. split; [assumption|].
  unfold ImplicitModelLoRA.forward, lift. rewrite E. simpl.
  rewrite EA. simpl.
  split; [reflexivity|]. rewrite EY. split; [reflexivity | assumption].
Qed.

(** ** [ImplicitModelLoRA2.forward]: the diagonal term *)

Lemma torch_diag_ok (X : tensor) (n : nat) :
  shape X = [n] ->
  exists M, torch_diag X = Ok M
            /\ size M = (n, n)
            /\ has_kind (dtype_of X) (device_of X) M.
Proof.
  intros Hs. unfold torch_diag. rewrite Hs.
  eexists. repeat split.
Qed.

(** Under [diag] the diagonal term is a projection and [self] is only
    read. *)
Lemma Diag_projected_vector (self : ImplicitModelLoRA2.t) (n : nat) :
  ImplicitModelLoRA2.diag self = true ->
  shape (value (ImplicitModelLoRA2.Diag self)) = [n] -> (0 < n)%nat ->
  exists Dp nD,
    ImplicitModelLoRA2.Diag_projected self = (self, Ok Dp)
    /\ size Dp = (n, n)
    /\ has_kind (dtype_of (value (ImplicitModelLoRA2.Diag self)))
                (device_of (value (ImplicitModelLoRA2.Diag self))) Dp
    /\ matrix_norm_inf Dp = Ok nD
    /\ nD <= ImplicitModelLoRA2.kapp_diag.
Proof.
  intros Hdiag Hs Hn.
  destruct (torch_diag_ok _ n Hs) as [M [EM [SM KM]]].
  assert (Hv : 0 < ImplicitModelLoRA2.kapp_diag)
    by (unfold ImplicitModelLoRA2.kapp_diag; lra).
  unfold size in SM. injection SM as SMr SMc.
  destruct (project_ok (dtype_of (value (ImplicitModelLoRA2.Diag self)))
              (device_of (value (ImplicitModelLoRA2.Diag self)))
              M ImplicitModelLoRA2.kapp_diag)
    as [Dp [nD [EP [SP [KP [NP BP]]]]]]; [lia | assumption | assumption |].
  exists Dp, nD.
  unfold ImplicitModelLoRA2.Diag_projected, mbind, get, lift.
  rewrite Hdiag, EM. simpl. rewrite EP.
  repeat split; try assumption; try apply KP.
  rewrite SP. unfold size. congruence.
Qed.

Lemma mul_scalar_eye_ok (M : matrix) (n : nat) :
  size M = (1%nat, 1%nat) -> mdevice M = default_device ->
  exists P, mul M (eye n) = Ok P
            /\ size P = (n, n)
            /\ has_kind (promote_types (mdtype M) default_dtype)
                        default_device P.
Proof.
  intros Hs Hv. unfold size in Hs. injection Hs as Hr Hc.
  unfold mul, pointwise. rewrite Hr, Hc, Hv. simpl.
  assert (Hb : broadcast_dim 1 n = Some n).
  { unfold broadcast_dim. destruct (Nat.eqb_spec 1 n) as [<-|]; reflexivity. }
  rewrite Hb. eexists. repeat split.
Qed.

(** Without [diag], a scalar within [kappa] is used as it is. *)
Lemma Diag_projected_scalar_inside (self : ImplicitModelLoRA2.t) (d : R) :
  ImplicitModelLoRA2.diag self = false ->
  shape (value (ImplicitModelLoRA2.Diag self)) = [1; 1]%nat ->
  data (value (ImplicitModelLoRA2.Diag self)) = [d] ->
  device_of (value (ImplicitModelLoRA2.Diag self)) = default_device ->
  Rabs d <= ImplicitModelLoRA2.kappa ->
  exists Dp,
    ImplicitModelLoRA2.Diag_projected self = (self, Ok Dp)
    /\ size Dp = (ImplicitModelLoRA2.n self, ImplicitModelLoRA2.n self)
    /\ has_kind
         (promote_types (dtype_of (value (ImplicitModelLoRA2.Diag self)))
                        default_dtype)
         default_device Dp.
Proof.
  intros Hdiag Hs Hd Hv Hle.
  destruct (mul_scalar_eye_ok
              (mkMatrix 1 1 (data (value (ImplicitModelLoRA2.Diag self)))
                 (dtype_of (value (ImplicitModelLoRA2.Diag self)))
                 (device_of (value (ImplicitModelLoRA2.Diag self))))
              (ImplicitModelLoRA2.n self))
    as [P [EP [SP KP]]]; [reflexivity | assumption |].
  exists P.
  unfold ImplicitModelLoRA2.Diag_projected, mbind, get, lift, item, ret.
  rewrite Hdiag, Hd.
  destruct (Rgt_dec (Rabs d) ImplicitModelLoRA2.kappa) as [Hgt|_]; [lra|].
  unfold broadcast_matrix. rewrite Hs. simpl. rewrite EP.
  repeat split; try assumption; apply KP.
Qed.

(** Without [diag], a scalar beyond [kappa] is to be replaced: the
    assignment to the registered parameter [Diag] raises and [self] is left
    as it was. *)
Lemma Diag_projected_scalar_outside (self : ImplicitModelLoRA2.t)
    (Dg : tensor) (d : R) :
  ImplicitModelLoRA2.diag self = false ->
  ImplicitModelLoRA2.Diag self = nn_Parameter Dg ->
  data Dg = [d] ->
  Rabs d > ImplicitModelLoRA2.kappa ->
  ImplicitModelLoRA2.Diag_projected self = (self, Raise TypeError).
Proof.
  intros Hdiag HD Hd Hgt.
  unfold ImplicitModelLoRA2.Diag_projected, mbind, get, lift, item.
  rewrite Hdiag, HD. simpl. rewrite Hd.
  destruct (Rgt_dec (Rabs d) ImplicitModelLoRA2.kappa) as [_|Hn]; [|lra].
  unfold ImplicitModelLoRA2.set_Diag. rewrite HD. reflexivity.
Qed.

(** The two projected factors of a well-formed state. *)
Lemma projected_factors_ok (self : ImplicitModelLoRA2.t)
    (dt : dtype) (dv : device) :
  ImplicitModelLoRA2.well_formed dt dv self ->
  exists Lp RTp nL nR P,
    ImplicitModelLoRA2.projected_factors self = Ok (Lp, RTp)
    /\ matrix_norm_inf Lp = Ok nL
    /\ nL <= sqrt (ImplicitModelLoRA2.kappa - ImplicitModelLoRA2.kapp_diag)
    /\ matrix_norm_inf RTp = Ok nR
    /\ nR <= sqrt (ImplicitModelLoRA2.kappa - ImplicitModelLoRA2.kapp_diag)
    /\ matmul Lp RTp = Ok P
    /\ size P = (ImplicitModelLoRA2.n self, ImplicitModelLoRA2.n self)
    /\ has_kind dt dv P.
Proof.
  intros [Hn [Hk [HL [HR [_ [_ [_ [_ Hkind]]]]]]]].
  inversion Hkind as [|? ? KL Hk1]; subst.
  inversion Hk1 as [|? ? KR _]; subst.
  destruct (transpose_matrix_kind dt dv (ImplicitModelLoRA2.R_ self) KR)
    as [SRT KRT].
  unfold size in HR. injection HR as HRr HRc. rewrite HRr, HRc in SRT.
  destruct (projected_product_ok dt dv (ImplicitModelLoRA2.L self)
              (transpose_matrix (ImplicitModelLoRA2.R_ self))
              (sqrt (ImplicitModelLoRA2.kappa - ImplicitModelLoRA2.kapp_diag))
              (ImplicitModelLoRA2.n self) (ImplicitModelLoRA2.k self)
              Hn Hk sqrt_budget_pos HL SRT KL KRT)
    as [Lp [RTp [nL [nR [P [EL [ER [NL [BL [NR [BR [EP [SP KP]]]]]]]]]]]]].
  exists Lp, RTp, nL, nR, P.
  unfold ImplicitModelLoRA2.projected_factors. rewrite EL. simpl.
  rewrite ER. simpl. repeat split; try assumption; apply KP.
Qed.

(** ** [ImplicitModelLoRA2.forward] step by step *)


Lemma ImplicitModelLoRA2_forward_no_diagonal (self : ImplicitModelLoRA2.t)
    (U : tensor) (X0 : option tensor) (UX : matrix * matrix) (e : exn) :
  forward_inputs (ImplicitModelLoRA2.n self) (ImplicitModelLoRA2.p self)
    (ImplicitModelLoRA2.bias self) U X0 = Ok UX ->
  ImplicitModelLoRA2.Diag_projected self = (self, Raise e) ->
  ImplicitModelLoRA2.forward U X0 self = (self, Raise e).
Proof.
  intros E ED. unfold ImplicitModelLoRA2.forward, mbind, get, lift.
  rewrite E, ED. reflexivity.
Qed.

Lemma ImplicitModelLoRA2_forward_steps (self : ImplicitModelLoRA2.t)
    (U : tensor) (X0 : option tensor) (UX : matrix * matrix) (Dp : matrix) :
  forward_inputs (ImplicitModelLoRA2.n self) (ImplicitModelLoRA2.p self)
    (ImplicitModelLoRA2.bias self) U X0 = Ok UX ->
  ImplicitModelLoRA2.Diag_projected self = (self, Ok Dp) ->
  ImplicitModelLoRA2.forward U X0 self
  = (self,
     LR <- ImplicitModelLoRA2.projected_factors self ;;
     A <- ImplicitModelLoRA2.A_eff Dp LR ;;
     X <- ImplicitModelLoRA2.f self A (ImplicitModelLoRA2.B self)
            (snd UX) (fst UX) ;;
     forward_output (ImplicitModelLoRA2.C self)
       (value (ImplicitModelLoRA2.D self)) X (fst UX)).
Proof.
  intros E ED. unfold ImplicitModelLoRA2.forward, mbind, get, lift.
  rewrite E, ED.
  destruct (ImplicitModelLoRA2.projected_factors self) as [LR|e];
    [|reflexivity].
  simpl. destruct (ImplicitModelLoRA2.A_eff Dp LR) as [A|e]; [|reflexivity].
  simpl.
  destruct (ImplicitModelLoRA2.f self A (ImplicitModelLoRA2.B self)
              (snd UX) (fst UX)) as [X|e]; reflexivity.
Qed.

(** The diagonal term of a well-formed state whose scalar [Diag], if it has
    one, lies within [kappa] and on the default device. *)
Lemma Diag_projected_ok (self : ImplicitModelLoRA2.t)
    (dt : dtype) (dv : device) :
  ImplicitModelLoRA2.well_formed dt dv self ->
  (ImplicitModelLoRA2.diag self = false ->
   (forall d, data (value (ImplicitModelLoRA2.Diag self)) = [d] ->
              Rabs d <= ImplicitModelLoRA2.kappa)
   /\ dv = default_device
   /\ promote_types dt default_dtype = dt) ->
  exists Dp,
    ImplicitModelLoRA2.Diag_projected self = (self, Ok Dp)
    /\ size Dp = (ImplicitModelLoRA2.n self, ImplicitModelLoRA2.n self)
    /\ has_kind dt dv Dp.
Proof.
  intros [Hn [_ [_ [_ [[Dg [HD [HsD [Hd [HdtD HdvD]]]]] _]]]]] Hside.
  assert (Hval : value (ImplicitModelLoRA2.Diag self) = Dg)
    by (rewrite HD; reflexivity).
  destruct (ImplicitModelLoRA2.diag self) eqn:Hdiag.
  - destruct (Diag_projected_vector self (ImplicitModelLoRA2.n self))
      as [Dp [nD [E [S [K _]]]]]; [assumption | congruence | assumption |].
    exists Dp. rewrite Hval, HdtD, HdvD in K. auto.
  - destruct (Hside eq_refl) as [Hle [Hdv Hpr]].
    destruct (Hd eq_refl) as [d Hdat].
    destruct (Diag_projected_scalar_inside self d)
      as [Dp [E [S K]]]; try congruence.
    { apply Hle. congruence. }
    exists Dp. rewrite Hval, HdtD, Hpr in K. subst dv.
    rewrite Hdv. auto.
Qed.

Lemma ImplicitModelLoRA2_forward_accept (self : ImplicitModelLoRA2.t)
    (dt : dtype) (dv : device) (U : tensor) (m p0 : nat) :
  ImplicitModelLoRA2.well_formed dt dv self ->
  (ImplicitModelLoRA2.diag self = false ->
   (forall d, data (value (ImplicitModelLoRA2.Diag self)) = [d] ->
              Rabs d <= ImplicitModelLoRA2.kappa)
   /\ dv = default_device
   /\ promote_types dt default_dtype = dt) ->
  solver_contract (ImplicitModelLoRA2.f self) ->
  shape U = [m; p0] -> dtype_of U = dt -> device_of U = dv ->
  ImplicitModelLoRA2.p self
  = (p0 + if ImplicitModelLoRA2.bias self then 1 else 0)%nat ->
  exists U' Dp LR A Y,
    input_U (ImplicitModelLoRA2.bias self) U = Ok U'
    /\ ImplicitModelLoRA2.Diag_projected self = (self, Ok Dp)
    /\ ImplicitModelLoRA2.projected_factors self = Ok LR
    /\ ImplicitModelLoRA2.A_eff Dp LR = Ok A
    /\ ImplicitModelLoRA2.forward U None self
       = (self,
          X <- ImplicitModelLoRA2.f self A (ImplicitModelLoRA2.B self)
                 (zeros (ImplicitModelLoRA2.n self) m dt dv) U' ;;
          forward_output (ImplicitModelLoRA2.C self)
            (value (ImplicitModelLoRA2.D self)) X U')
    /\ ImplicitModelLoRA2.forward U None self = (self, Ok Y)
    /\ size Y = (m, ImplicitModelLoRA2.q self).
Proof.
  intros Hwf Hside Hf Hs Hdt Hdv Hp.
  destruct (Diag_projected_ok self dt dv Hwf Hside) as [Dp [ED [SD KD]]].
  destruct (projected_factors_ok self dt dv Hwf)
    as [Lp [RTp [nL [nR [P [EF [_ [_ [_ [_ [EP [SP KP]]]]]]]]]]]].
  destruct (add_ok dt dv Dp P) as [A [EA [SA KA]]];
    [congruence | assumption | assumption |].
  destruct Hwf as [Hn [Hk [HL [HR [_ [HB [HC [HD Hkind]]]]]]]].
  destruct (forward_inputs_accept (ImplicitModelLoRA2.n self)
              (ImplicitModelLoRA2.p self) (ImplicitModelLoRA2.bias self)
              U m p0 Hs Hp)
    as [U' [EU [E [HsU HkU]]]].
  rewrite Hdt, Hdv in E, HkU.
  inversion Hkind as [|? ? KL Hk1]; subst.
  inversion Hk1 as [|? ? KR Hk2]; subst.
  inversion Hk2 as [|? ? KB Hk3]; subst.
  inversion Hk3 as [|? ? KC Hk4]; subst.
  inversion Hk4 as [|? ? KDD _]; subst.
  destruct (solve_and_output_ok (ImplicitModelLoRA2.f self)
              (dtype_of U) (device_of U)
              A (ImplicitModelLoRA2.B self)
              (ImplicitModelLoRA2.C self) (value (ImplicitModelLoRA2.D self))
              (zeros (ImplicitModelLoRA2.n self) m (dtype_of U) (device_of U))
              U'
              (ImplicitModelLoRA2.n self) (ImplicitModelLoRA2.p self)
              (ImplicitModelLoRA2.q self) m)
    as [Y [EY HY]]; auto.
  { congruence. }
  { repeat constructor; try apply KA; try apply KB; try apply KC;
      try apply KDD; try apply HkU. }
  assert (EAeff : ImplicitModelLoRA2.A_eff Dp (Lp, RTp) = Ok A).
  { unfold ImplicitModelLoRA2.A_eff. simpl. rewrite EP. simpl. exact EA. }
  exists U', Dp, (Lp, RTp), A, Y.
  rewrite (ImplicitModelLoRA2_forward_steps self U None _ Dp E ED).
  rewrite EF. simpl. rewrite EAeff. simpl.
  repeat split; try assumption. rewrite EY. reflexivity.
Qed.

(** ** The budget split of [ImplicitModelLoRA2] *)




(** ** [forward] on a model of any class *)

(** Accepted input without [X0]: the solver is called on zeros for [X0] and
    the result has one row per batch entry and [q] columns. *)
Lemma forward_accept (s : model) (dt : dtype) (dv : device) (U : tensor)
    (m p0 : nat) :
  well_formed dt dv s -> scalar_Diag_within dt dv s ->
  solver_contract (solver s) ->
  shape U = [m; p0] -> dtype_of U = dt -> device_of U = dv ->
  input_width s = (p0 + bias_rows s)%nat ->
  exists U' A Y,
    input_U (uses_bias s) U = Ok U'
    /\ forward U None s
       = (s,
          X <- solver s A (B_of s) (zeros (hidden_width s) m dt dv) U' ;;
          forward_output (C_of s) (value (D_of s)) X U')
    /\ forward U None s = (s, Ok Y)
    /\ size Y = (m, output_width s).
Proof.
  intros Hwf Hside Hf Hs Hdt Hdv Hp.
  destruct s as [self | self | self]; simpl in *; unfold bias_rows in Hp;
    simpl in Hp.
  - destruct (ImplicitModel_forward_accept self dt dv U m p0
                Hwf Hf Hs Hdt Hdv Hp) as [U' [Y [EU [E1 [E2 HY]]]]].
    exists U', (ImplicitModel.A self), Y.
    unfold on_variant. rewrite E2 at 2. rewrite E1.
    repeat split; assumption.
  - destruct (ImplicitModelLoRA_forward_accept self dt dv U m p0
                Hwf Hf Hs Hdt Hdv Hp) as [U' [A [Y [EU [_ [E1 [E2 HY]]]]]]].
    exists U', A, Y.
    unfold on_variant. rewrite E2 at 2. rewrite E1.
    repeat split; assumption.
  - destruct (ImplicitModelLoRA2_forward_accept self dt dv U m p0
                Hwf Hside Hf Hs Hdt Hdv Hp)
      as [U' [Dp [LR [A [Y [EU [_ [_ [_ [E1 [E2 HY]]]]]]]]]]].
    exists U', A, Y.
    unfold on_variant. rewrite E2 at 2. rewrite E1.
    repeat split; assumption.
Qed.





(** ** The shape contract *)


Lemma returns_X0_contract : solver_contract returns_X0.
Proof.
  intros A B X0 U n p m dt dv HA HB HX0 HU Hk.
  inversion Hk as [|? ? [KdA KvA] _]; subst.
  eexists. split; [reflexivity|]. repeat split. exact HX0.
Defined.




(** ** Shape mismatches *)





(** ** The bias row *)

Lemma length_rows (A : Type) (f : nat -> nat -> A) (r c : nat) :
  List.length (flat_map (fun i => map (f i) (seq 0 c)) (seq 0 r))
  = (r * c)%nat.
Proof.
  generalize 0%nat at 2. induction r as [|r IH]; intros a; simpl.
  - reflexivity.
  - rewrite length_app, length_map, length_seq, IH. reflexivity.
Qed.

Lemma length_transpose_matrix (M : matrix) :
  List.length (entries (transpose_matrix M)) = (ncols M * nrows M)%nat.
Proof.
  unfold transpose_matrix. simpl.
  apply (length_rows R (fun j i => entry M i j)).
Qed.

Lemma nth_repeat_one (j m : nat) : (j < m)%nat -> nth j (repeat 1 m) 0 = 1.
Proof.
  intros Hj. rewrite (nth_indep _ 0 1) by (rewrite repeat_length; exact Hj).
  apply nth_repeat.
Qed.

(** The padded matrix: the rows of [Ut], then one row of ones. *)
Lemma pad_row_of_ones_rows (Ut : matrix) :
  List.length (entries Ut) = (nrows Ut * ncols Ut)%nat ->
  size (pad_row_of_ones Ut) = ((nrows Ut + 1)%nat, ncols Ut)
  /\ entries (pad_row_of_ones Ut) = entries Ut ++ repeat 1 (ncols Ut)
  /\ (forall j, (j < ncols Ut)%nat ->
                entry (pad_row_of_ones Ut) (nrows Ut) j = 1)
  /\ (forall i j, (i < nrows Ut)%nat -> (j < ncols Ut)%nat ->
                  entry (pad_row_of_ones Ut) i j = entry Ut i j).
Proof.
  intros Hlen. split; [reflexivity|]. split; [reflexivity|]. split.
  - intros j Hj. unfold entry. simpl.
    rewrite app_nth2 by (rewrite Hlen; lia).
    rewrite Hlen.
    replace (nrows Ut * ncols Ut + j - nrows Ut * ncols Ut)%nat with j by lia.
    apply nth_repeat_one. exact Hj.
  - intros i j Hi Hj. unfold entry. simpl.
    apply app_nth1. rewrite Hlen. nia.
Qed.

(** C5: built with [bias] set, a model of any of the three classes has the
    input width p + 1, and [B] and [D] (a parameter or the zero tensor) have
    p + 1 columns.  In a [forward] call with [bias] set, a [U] of shape
    (m, p0) becomes, after transposition to (p0, m), a matrix of p0 + 1 rows
    whose first p0 rows are those of the transpose and whose last row is m
    entries of value 1, for every m; that matrix is the [U] the rest of the
    body goes on with. *)
Theorem bias_appends_row_of_ones (U : tensor) (m p0 : nat) :
  shape U = [m; p0] ->
  (exists Ut U',
      transpose U = Ok Ut /\ size Ut = (p0, m)
      /\ input_U true U = Ok U' /\ U' = pad_row_of_ones Ut
      /\ size U' = ((p0 + 1)%nat, m)
      /\ entries U' = entries Ut ++ repeat 1 m
      /\ (forall j, (j < m)%nat -> entry U' p0 j = 1)
      /\ (forall i j, (i < p0)%nat -> (j < m)%nat ->
                      entry U' i j = entry Ut i j)
      /\ (forall n p X0 UX,
             forward_inputs n p true U X0 = Ok UX -> fst UX = U'))
  /\ (forall g n p q f no_D,
         let self := fst (ImplicitModel.__init__ g n p q f no_D true) in
         ImplicitModel.bias self = true
         /\ ImplicitModel.p self = (p + 1)%nat
         /\ size (ImplicitModel.B self) = (n, (p + 1)%nat)
         /\ size (value (ImplicitModel.D self)) = (q, (p + 1)%nat))
  /\ (forall g k n p q f no_D,
         let self := fst (ImplicitModelLoRA.__init__ g k n p q f no_D true) in
         ImplicitModelLoRA.bias self = true
         /\ ImplicitModelLoRA.p self = (p + 1)%nat
         /\ size (ImplicitModelLoRA.B self) = (n, (p + 1)%nat)
         /\ size (value (ImplicitModelLoRA.D self)) = (q, (p + 1)%nat))
  /\ (forall g k n p q f no_D diag,
         let self :=
           fst (ImplicitModelLoRA2.__init__ g k n p q f no_D true diag) in
         ImplicitModelLoRA2.bias self = true
         /\ ImplicitModelLoRA2.p self = (p + 1)%nat
         /\ size (ImplicitModelLoRA2.B self) = (n, (p + 1)%nat)
         /\ size (value (ImplicitModelLoRA2.D self)) = (q, (p + 1)%nat)).
Proof.
  intros Hs. split; [|split; [|split]].
  - set (M := mkMatrix m p0 (data U) (dtype_of U) (device_of U)).
    assert (ET : transpose U = Ok (transpose_matrix M)).
    { unfold transpose, as_matrix. rewrite Hs. reflexivity. }
    assert (EU : input_U true U = Ok (pad_row_of_ones (transpose_matrix M))).
    { unfold input_U. rewrite Hs. simpl. fold M. rewrite ET. reflexivity. }
    destruct (pad_row_of_ones_rows (transpose_matrix M))
      as [Hsz [Hent [Hlast Hrest]]].
    { rewrite length_transpose_matrix. reflexivity. }
    exists (transpose_matrix M), (pad_row_of_ones (transpose_matrix M)).
    repeat split; try assumption.
    intros n p X0 UX E. unfold forward_inputs in E. rewrite EU in E.
    simpl in E.
    destruct (assert _ _); [|discriminate]. simpl in E.
    destruct (initial_X0 _ _ X0); [|discriminate]. simpl in E.
    injection E as <-. reflexivity.
  - intros g n p q f no_D. destruct no_D; repeat split.
  - intros g k n p q f no_D. destruct no_D; repeat split.
  - intros g k n p q f no_D diag. destruct no_D, diag; repeat split.
Qed.

Lemma bias_appends_row_of_ones_witness :
  shape U_1x1 = [1; 1]%nat /\
  exists Ut U',
    transpose U_1x1 = Ok Ut /\ size Ut = (1%nat, 1%nat)
    /\ input_U true U_1x1 = Ok U' /\ U' = pad_row_of_ones Ut
    /\ size U' = (2%nat, 1%nat)
    /\ entries U' = entries Ut ++ repeat 1 1
    /\ (forall j, (j < 1)%nat -> entry U' 1 j = 1)
    /\ (forall i j, (i < 1)%nat -> (j < 1)%nat ->
                    entry U' i j = entry Ut i j)
    /\ (forall n p X0 UX,
           forward_inputs n p true U_1x1 X0 = Ok UX -> fst UX = U').
Proof.
  split; [reflexivity|].
  exact (proj1 (bias_appends_row_of_ones U_1x1 1 1 eq_refl)).
Defined.

(** ** The synthesized initial state *)

Lemma flatten_1_kind (V : tensor) :
  dtype_of (flatten_1 V) = dtype_of V /\ device_of (flatten_1 V) = device_of V.
Proof.
  unfold flatten_1.
  destruct (shape V) as [|a [|b [|c [|d l]]]]; split; reflexivity.
Qed.

Lemma transpose_kind (V : tensor) (M : matrix) :
  transpose V = Ok M -> mdtype M = dtype_of V /\ mdevice M = device_of V.
Proof.
  unfold transpose, as_matrix.
  destruct (shape V) as [|a [|b [|c l]]]; try discriminate.
  intros E. injection E as <-. split; reflexivity.
Qed.

(** The feature-major [U] has the element type and the device of the [U]
    given. *)
Lemma input_U_kind (bias : bool) (V : tensor) (U' : matrix) :
  input_U bias V = Ok U' ->
  mdtype U' = dtype_of V /\ mdevice U' = device_of V.
Proof.
  unfold input_U. intros E.
  destruct (flatten_1_kind V) as [Fd Fv].
  destruct (Nat.eqb (List.length (shape V)) 3).
  - destruct (transpose (flatten_1 V)) as [M|e] eqn:ET; [|discriminate].
    destruct (transpose_kind _ _ ET) as [Hd Hv].
    simpl in E. injection E as <-.
    destruct bias; simpl; split; congruence.
  - destruct (transpose V) as [M|e] eqn:ET; [|discriminate].
    destruct (transpose_kind _ _ ET) as [Hd Hv].
    simpl in E. injection E as <-.
    destruct bias; simpl; split; congruence.
Qed.

(** Whenever the opening lines of [forward] get through without an [X0]
    given, the [X0] they leave is the zero matrix of size (n, m) with the
    element type and device of [U]. *)
Lemma forward_inputs_zero_X0 (n p : nat) (bias : bool) (V : tensor)
    (U' X0' : matrix) :
  forward_inputs n p bias V None = Ok (U', X0') ->
  X0' = zeros n (ncols U') (dtype_of V) (device_of V).
Proof.
  unfold forward_inputs. intros E.
  destruct (input_U bias V) as [W|e] eqn:EU; [|discriminate].
  destruct (input_U_kind bias V W EU) as [Hd Hv].
  simpl in E. destruct (assert _ _); [|discriminate].
  simpl in E. injection E as <- <-. rewrite Hd, Hv. reflexivity.
Qed.

Lemma ImplicitModel_init_well_formed (g : generator) (n p q : nat)
    (f : ImplicitFunction) (no_D bias : bool) :
  ImplicitModel.well_formed default_dtype default_device
    (fst (ImplicitModel.__init__ g n p q f no_D bias)).
Proof.
  unfold ImplicitModel.well_formed.
  destruct no_D; simpl; repeat split; repeat constructor.
Qed.

(** C7: on a well-formed model of any class and an accepted [U] of shape
    (m, p0), a [forward] call without [X0] hands the solver, as its third
    argument, the zero matrix of size (n, m) with the element type and
    device of [U], and returns a result of shape (m, q); whenever the
    opening lines of [forward] get through without an [X0] given, that zero
    matrix is the [X0] they leave.  For a dense model built with n = 4,
    p = 3, q = 2, without bias, and a [U] of shape (5, 3), the solver gets
    the 4 x 5 zero matrix and the result has shape (5, 2). *)
Theorem forward_synthesizes_zero_X0 (s : model) (dt : dtype) (dv : device)
    (U : tensor) (m p0 : nat) :
  well_formed dt dv s -> scalar_Diag_within dt dv s ->
  solver_contract (solver s) ->
  shape U = [m; p0] -> dtype_of U = dt -> device_of U = dv ->
  input_width s = (p0 + bias_rows s)%nat ->
  (exists U' A Y,
      forward_inputs (hidden_width s) (input_width s) (uses_bias s) U None
      = Ok (U', zeros (hidden_width s) m (dtype_of U) (device_of U))
      /\ forward U None s
         = (s,
            X <- solver s A (B_of s)
                   (zeros (hidden_width s) m (dtype_of U) (device_of U)) U' ;;
            forward_output (C_of s) (value (D_of s)) X U')
      /\ forward U None s = (s, Ok Y)
      /\ size Y = (m, output_width s))
  /\ (size (zeros (hidden_width s) m (dtype_of U) (device_of U))
      = (hidden_width s, m)
      /\ entries (zeros (hidden_width s) m (dtype_of U) (device_of U))
         = repeat 0 (hidden_width s * m)
      /\ mdtype (zeros (hidden_width s) m (dtype_of U) (device_of U))
         = dtype_of U
      /\ mdevice (zeros (hidden_width s) m (dtype_of U) (device_of U))
         = device_of U)
  /\ (forall n p bias V U' X0',
         forward_inputs n p bias V None = Ok (U', X0') ->
         X0' = zeros n (ncols U') (dtype_of V) (device_of V))
  /\ (forall g f no_D U5,
         solver_contract f ->
         shape U5 = [5; 3]%nat ->
         dtype_of U5 = default_dtype -> device_of U5 = default_device ->
         let self := fst (ImplicitModel.__init__ g 4 3 2 f no_D false) in
         exists U' Y,
           forward U5 None (Dense self)
           = (Dense self,
              X <- f (ImplicitModel.A self) (ImplicitModel.B self)
                     (zeros 4 5 default_dtype default_device) U' ;;
              forward_output (ImplicitModel.C self)
                (value (ImplicitModel.D self)) X U')
           /\ entries (zeros 4 5 default_dtype default_device)
              = repeat 0 20
           /\ forward U5 None (Dense self) = (Dense self, Ok Y)
           /\ size Y = (5%nat, 2%nat)).
Proof.
  intros Hwf Hside Hf Hs Hdt Hdv Hp. split; [|split; [|split]].
  - destruct (forward_accept s dt dv U m p0 Hwf Hside Hf Hs Hdt Hdv Hp)
      as [U' [A [Y [EU [E1 [E2 HY]]]]]].
    destruct (forward_inputs_accept (hidden_width s) (input_width s)
                (uses_bias s) U m p0 Hs Hp) as [U'' [EU' [EI _]]].
    assert (U'' = U') by congruence. subst U''.
    exists U', A, Y. rewrite Hdt, Hdv. rewrite Hdt, Hdv in EI.
    repeat split; assumption.
  - repeat split.
  - intros n p bias V U' X0'. apply forward_inputs_zero_X0.
  - intros g f no_D U5 Hf5 Hs5 Hdt5 Hdv5 self.
    destruct (ImplicitModel_forward_accept self default_dtype default_device
                U5 5 3) as [U' [Y [_ [E1 [E2 HY]]]]];
      try assumption.
    + apply ImplicitModel_init_well_formed.
    + destruct no_D; assumption.
    + destruct no_D; reflexivity.
    + exists U', Y. simpl. unfold on_variant.
      rewrite E2 at 2. rewrite E1.
      assert (Hn : ImplicitModel.n self = 4%nat)
        by (destruct no_D; reflexivity).
      assert (Hq : ImplicitModel.q self = 2%nat)
        by (destruct no_D; reflexivity).
      assert (Hfs : ImplicitModel.f self = f)
        by (destruct no_D; reflexivity).
      rewrite Hn, Hq in *. rewrite Hfs.
      repeat split; assumption.
Qed.

Lemma dense_432_well_formed : well_formed float32 cpu (Dense dense_432).
Proof.
  simpl. unfold ImplicitModel.well_formed. simpl.
  repeat split; repeat constructor.
Defined.

Lemma forward_synthesizes_zero_X0_witness :
  well_formed float32 cpu (Dense dense_432) /\
  scalar_Diag_within float32 cpu (Dense dense_432) /\
  solver_contract (solver (Dense dense_432)) /\
  shape U_5x3 = [5; 3]%nat /\
  dtype_of U_5x3 = float32 /\ device_of U_5x3 = cpu /\
  input_width (Dense dense_432) = (3 + bias_rows (Dense dense_432))%nat /\
  exists U' A Y,
    forward_inputs (hidden_width (Dense dense_432))
      (input_width (Dense dense_432)) (uses_bias (Dense dense_432))
      U_5x3 None
    = Ok (U', zeros 4 5 float32 cpu)
    /\ forward U_5x3 None (Dense dense_432)
       = (Dense dense_432,
          X <- solver (Dense dense_432) A (B_of (Dense dense_432))
                 (zeros 4 5 float32 cpu) U' ;;
          forward_output (C_of (Dense dense_432))
            (value (D_of (Dense dense_432))) X U')
    /\ forward U_5x3 None (Dense dense_432) = (Dense dense_432, Ok Y)
    /\ size Y = (5%nat, 2%nat).
Proof.
  split; [exact dense_432_well_formed|]. split; [exact I|].
  split; [exact returns_X0_contract|]. split; [reflexivity|].
  split; [reflexivity|]. split; [reflexivity|]. split; [reflexivity|].
  exact (proj1 (forward_synthesizes_zero_X0 (Dense dense_432) float32 cpu
                  U_5x3 5 3 dense_432_well_formed I returns_X0_contract
                  eq_refl eq_refl eq_refl eq_refl)).
Defined.

(** ** Models without [D] *)

(** [forward] reads the attribute [D] through its value only: swapping the
    attribute for another one holding the same matrix changes neither the
    result nor what happens to the rest of [self]. *)
Lemma ImplicitModelLoRA2_forward_with_D (self : ImplicitModelLoRA2.t)
    (D' : attribute matrix) (U : tensor) (X0 : option tensor) :
  value D' = value (ImplicitModelLoRA2.D self) ->
  ImplicitModelLoRA2.forward U X0 (ImplicitModelLoRA2.with_D D' self)
  = (ImplicitModelLoRA2.with_D D'
       (fst (ImplicitModelLoRA2.forward U X0 self)),
     snd (ImplicitModelLoRA2.forward U X0 self)).
Proof.
  intros HD.
  unfold ImplicitModelLoRA2.forward, mbind, get, lift. simpl.
  destruct (forward_inputs _ _ _ U X0) as [UX|e]; [|reflexivity].
  unfold ImplicitModelLoRA2.Diag_projected, mbind, get, lift, ret. simpl.
  destruct (ImplicitModelLoRA2.diag self).
  - destruct (torch_diag _) as [M|e]; simpl; [|reflexivity].
    destruct (project_onto_Linf_ball M _) as [Dp|e]; simpl; [|reflexivity].
    unfold ImplicitModelLoRA2.projected_factors. simpl.
    destruct (project_onto_Linf_ball (ImplicitModelLoRA2.L self) _)
      as [Lp|e]; simpl; [|reflexivity].
    destruct (project_onto_Linf_ball _ _) as [RTp|e]; simpl; [|reflexivity].
    destruct (ImplicitModelLoRA2.A_eff Dp (Lp, RTp)) as [A|e]; simpl;
      [|reflexivity].
    destruct (ImplicitModelLoRA2.f self A _ _ _) as [X|e]; simpl;
      [|reflexivity].
    rewrite HD. reflexivity.
  - destruct (item _) as [d|e]; simpl; [|reflexivity].
    destruct (Rgt_dec (Rabs d) ImplicitModelLoRA2.kappa).
    + unfold ImplicitModelLoRA2.set_Diag. simpl.
      destruct (ImplicitModelLoRA2.Diag self) as [Dg|Dg]; simpl;
        [reflexivity|].
      destruct (broadcast_matrix _) as [M|e]; simpl; [|reflexivity].
      destruct (mul M _) as [Dp|e]; simpl; [|reflexivity].
      unfold ImplicitModelLoRA2.projected_factors. simpl.
      destruct (project_onto_Linf_ball (ImplicitModelLoRA2.L self) _)
        as [Lp|e]; simpl; [|reflexivity].
      destruct (project_onto_Linf_ball _ _) as [RTp|e]; simpl;
        [|reflexivity].
      destruct (ImplicitModelLoRA2.A_eff Dp (Lp, RTp)) as [A|e]; simpl;
        [|reflexivity].
      destruct (ImplicitModelLoRA2.f self A _ _ _) as [X|e]; simpl;
        [|reflexivity].
      rewrite HD. reflexivity.
    + simpl.
      destruct (broadcast_matrix _) as [M|e]; simpl; [|reflexivity].
      destruct (mul M _) as [Dp|e]; simpl; [|reflexivity].
      unfold ImplicitModelLoRA2.projected_factors. simpl.
      destruct (project_onto_Linf_ball (ImplicitModelLoRA2.L self) _)
        as [Lp|e]; simpl; [|reflexivity].
      destruct (project_onto_Linf_ball _ _) as [RTp|e]; simpl;
        [|reflexivity].
      destruct (ImplicitModelLoRA2.A_eff Dp (Lp, RTp)) as [A|e]; simpl;
        [|reflexivity].
      destruct (ImplicitModelLoRA2.f self A _ _ _) as [X|e]; simpl;
        [|reflexivity].
      rewrite HD. reflexivity.
Qed.

Lemma forward_with_D (s : model) (D' : attribute matrix) (U : tensor)
    (X0 : option tensor) :
  value D' = value (D_of s) ->
  snd (forward U X0 (with_D D' s)) = snd (forward U X0 s).
Proof.
  intros HD. destruct s as [self | self | self]; simpl in *;
    unfold on_variant.
  - unfold ImplicitModel.forward, lift. simpl. rewrite HD. reflexivity.
  - unfold ImplicitModelLoRA.forward, lift, ImplicitModelLoRA.A_eff. simpl.
    rewrite HD. reflexivity.
  - rewrite (ImplicitModelLoRA2_forward_with_D self D' U X0 HD).
    destruct (ImplicitModelLoRA2.forward U X0 self). reflexivity.
Qed.

Lemma with_D_twice (s : model) (D1 D2 : attribute matrix) :
  with_D D1 (with_D D2 s) = with_D D1 s /\ D_of (with_D D2 s) = D2.
Proof. destruct s; split; reflexivity. Qed.

(** C9: for every generator state, configuration, input [U] and optional
    [X0], and in each of the three classes, [forward] on the model built with
    [no_D] set returns what it returns on the model built without [no_D]
    whose [D] has been forced to all zeros.  The two models differ in
    nothing but the kind of the attribute [D], which in the first is a plain
    zero tensor and not among the registered parameters an optimizer would
    update.  More generally, whatever the other attributes hold, a model
    whose [D] is a plain tensor and the model that has the same matrix as
    the parameter [D] return the same result. *)
Theorem no_D_is_zero_D :
  (forall (s : model) (Z : matrix) U X0,
      snd (forward U X0 (with_D (plain_Tensor Z) s))
      = snd (forward U X0 (with_D (nn_Parameter Z) s)))
  /\ (forall g n p q f bias U X0,
      let without := Dense (fst (ImplicitModel.__init__ g n p q f true bias)) in
      let zeroed :=
        zero_D (Dense (fst (ImplicitModel.__init__ g n p q f false bias))) in
      snd (forward U X0 without) = snd (forward U X0 zeroed)
      /\ zeroed = with_D (nn_Parameter (value (D_of without))) without
      /\ D_of without
         = plain_Tensor (zeros q (if bias then p + 1 else p)%nat
                           default_dtype default_device)
      /\ registered (D_of without) = [])
  /\ (forall g k n p q f bias U X0,
         let without :=
           LowRank (fst (ImplicitModelLoRA.__init__ g k n p q f true bias)) in
         let zeroed :=
           zero_D
             (LowRank (fst (ImplicitModelLoRA.__init__ g k n p q f false bias)))
         in
         snd (forward U X0 without) = snd (forward U X0 zeroed)
         /\ zeroed = with_D (nn_Parameter (value (D_of without))) without
         /\ D_of without
            = plain_Tensor (zeros q (if bias then p + 1 else p)%nat
                              default_dtype default_device)
         /\ registered (D_of without) = [])
  /\ (forall g k n p q f bias diag U X0,
         let without :=
           LowRankDiag
             (fst (ImplicitModelLoRA2.__init__ g k n p q f true bias diag)) in
         let zeroed :=
           zero_D
             (LowRankDiag
                (fst (ImplicitModelLoRA2.__init__ g k n p q f false bias diag)))
         in
         snd (forward U X0 without) = snd (forward U X0 zeroed)
         /\ zeroed = with_D (nn_Parameter (value (D_of without))) without
         /\ D_of without
            = plain_Tensor (zeros q (if bias then p + 1 else p)%nat
                              default_dtype default_device)
         /\ registered (D_of without) = []).
Proof.
  split; [|split; [|split]].
  - intros s Z U X0.
    destruct (with_D_twice s (plain_Tensor Z) (nn_Parameter Z)) as [<- _].
    apply forward_with_D.
    rewrite (proj2 (with_D_twice s (plain_Tensor Z) (nn_Parameter Z))).
    reflexivity.
  - intros g n p q f bias U X0 without zeroed.
    assert (Hz : zeroed
                 = with_D (nn_Parameter (value (D_of without))) without)
      by reflexivity.
    split; [|split; [exact Hz | split; reflexivity]].
    rewrite Hz. symmetry. apply forward_with_D. reflexivity.
  - intros g k n p q f bias U X0 without zeroed.
    assert (Hz : zeroed
                 = with_D (nn_Parameter (value (D_of without))) without)
      by reflexivity.
    split; [|split; [exact Hz | split; reflexivity]].
    rewrite Hz. symmetry. apply forward_with_D. reflexivity.
  - intros g k n p q f bias diag U X0 without zeroed.
    assert (Hz : zeroed
                 = with_D (nn_Parameter (value (D_of without))) without).
    { subst without zeroed. destruct diag; reflexivity. }
    split; [|split; [exact Hz|]].
    + rewrite Hz. symmetry. apply forward_with_D. reflexivity.
    + subst without. destruct diag; split; reflexivity.
Qed.

(** ** What [forward] writes *)

(** The scalar the code computes for a [Diag] beyond [kappa] is positive,
    whatever the sign of [Diag]. *)
Lemma rescaled_scalar_positive (d : R) :
  Rabs d > ImplicitModelLoRA2.kappa ->
  0 < ImplicitModelLoRA2.kappa * d / (d + 1e-10).
Proof.
  unfold ImplicitModelLoRA2.kappa. intros Hd.
  unfold Rabs in Hd. destruct (Rcase_abs d) as [Hneg | Hpos].
  - assert (Hden : d + 1e-10 < 0) by lra.
    assert (Hinv : / (d + 1e-10) < 0) by (apply Rinv_lt_0_compat; lra).
    unfold Rdiv. nra.
  - assert (Hinv : 0 < / (d + 1e-10)) by (apply Rinv_0_lt_compat; lra).
    unfold Rdiv. nra.
Qed.



(** A scalar [Diag] beyond [kappa], stored as the parameter [__init__]
    registers: the call ends in [TypeError] at the assignment. *)
Lemma scalar_rescale_raises (self : ImplicitModelLoRA2.t) (Dg : tensor)
    (d : R) (U : tensor) (X0 : option tensor) (UX : matrix * matrix) :
  ImplicitModelLoRA2.diag self = false ->
  ImplicitModelLoRA2.Diag self = nn_Parameter Dg ->
  data Dg = [d] ->
  Rabs d > ImplicitModelLoRA2.kappa ->
  forward_inputs (ImplicitModelLoRA2.n self) (ImplicitModelLoRA2.p self)
    (ImplicitModelLoRA2.bias self) U X0 = Ok UX ->
  forward U X0 (LowRankDiag self) = (LowRankDiag self, Raise TypeError).
Proof.
  intros Hdiag HD Hd Hgt E. simpl. unfold on_variant.
  rewrite (ImplicitModelLoRA2_forward_no_diagonal self U X0 UX TypeError E
             (Diag_projected_scalar_outside self Dg d Hdiag HD Hd Hgt)).
  reflexivity.
Qed.

Lemma lora2_scalar_inputs (d : R) :
  exists UX,
    forward_inputs (ImplicitModelLoRA2.n (lora2_scalar d))
      (ImplicitModelLoRA2.p (lora2_scalar d))
      (ImplicitModelLoRA2.bias (lora2_scalar d)) U_1x1 None = Ok UX.
Proof.
  destruct (forward_inputs_accept 1 1 false U_1x1 1 1 eq_refl eq_refl)
    as [U' [_ [E _]]].
  eexists. exact E.
Qed.

(** C8 at the failing input: an [ImplicitModelLoRA2] without [diag] whose
    scalar [Diag] is 1, beyond 0.95.  The call does not overwrite [Diag]
    with the rescaled value 0.95 * 1 / (1 + 1e-10): the assignment raises
    [TypeError], the call ends there and [self], [Diag] included, is as it
    was. *)
Theorem forward_scalar_Diag_not_overwritten :
  Rabs 1 > ImplicitModelLoRA2.kappa
  /\ forward U_1x1 None (LowRankDiag (lora2_scalar 1))
     = (LowRankDiag (lora2_scalar 1), Raise TypeError)
  /\ data (value (ImplicitModelLoRA2.Diag (lora2_scalar 1))) = [1]
  /\ data (ImplicitModelLoRA2.rescaled_Diag
             (value (ImplicitModelLoRA2.Diag (lora2_scalar 1))))
     = [0.95 * 1 / (1 + 1e-10)]
  /\ 0.95 * 1 / (1 + 1e-10) <> 1.
Proof.
  assert (Hgt : Rabs 1 > ImplicitModelLoRA2.kappa).
  { rewrite Rabs_R1. unfold ImplicitModelLoRA2.kappa. lra. }
  split; [exact Hgt|]. split; [|split; [reflexivity | split]].
  - destruct (lora2_scalar_inputs 1) as [UX E].
    apply (scalar_rescale_raises (lora2_scalar 1)
             (mkTensor [1; 1]%nat [1] float32 cpu) 1 U_1x1 None UX);
      try reflexivity; assumption.
  - reflexivity.
  - intros H.
    assert (Hi : / (1 + 1e-10) < / 1) by (apply Rinv_lt_contravar; lra).
    rewrite Rinv_1 in Hi. unfold Rdiv in H. lra.
Qed.

(** C10 at the failing input: an [ImplicitModelLoRA2] without [diag] whose
    scalar [Diag] is -1.  The value the code computes for the assignment,
    0.95 * (-1) / (-1 + 1e-10), is positive, but it is not written back: the
    assignment raises [TypeError], [Diag] stays -1 and no diagonal term is
    formed. *)
Theorem forward_negative_scalar_Diag :
  Rabs (-1) > ImplicitModelLoRA2.kappa
  /\ data (ImplicitModelLoRA2.rescaled_Diag
             (value (ImplicitModelLoRA2.Diag (lora2_scalar (-1)))))
     = [0.95 * -1 / (-1 + 1e-10)]
  /\ 0 < 0.95 * -1 / (-1 + 1e-10)
  /\ ImplicitModelLoRA2.Diag_projected (lora2_scalar (-1))
     = (lora2_scalar (-1), Raise TypeError)
  /\ forward U_1x1 None (LowRankDiag (lora2_scalar (-1)))
     = (LowRankDiag (lora2_scalar (-1)), Raise TypeError)
  /\ data (value (ImplicitModelLoRA2.Diag (lora2_scalar (-1)))) = [-1].
Proof.
  assert (Hgt : Rabs (-1) > ImplicitModelLoRA2.kappa).
  { unfold ImplicitModelLoRA2.kappa, Rabs.
    destruct (Rcase_abs (-1)); lra. }
  split; [exact Hgt|]. split; [reflexivity|]. split; [|split; [|split]].
  - apply (rescaled_scalar_positive (-1) Hgt).
  - apply (Diag_projected_scalar_outside (lora2_scalar (-1))
             (mkTensor [1; 1]%nat [-1] float32 cpu) (-1));
      try reflexivity; assumption.
  - destruct (lora2_scalar_inputs (-1)) as [UX E].
    apply (scalar_rescale_raises (lora2_scalar (-1))
             (mkTensor [1; 1]%nat [-1] float32 cpu) (-1) U_1x1 None UX);
      try reflexivity; assumption.
  - reflexivity.
Qed.

(** * Further properties *)

(** ** Rows of a matrix built entry by entry *)

Lemma nth_rows_from (f : nat -> nat -> R) (c r a i j : nat) :
  (i < r)%nat -> (j < c)%nat ->
  nth (i * c + j) (flat_map (fun i => map (f i) (seq 0 c)) (seq a r)) 0
  = f (a + i)%nat j.
Proof.
  revert a i. induction r as [|r IH]; intros a i Hi Hj; [lia|].
  simpl. destruct i as [|i].
  - rewrite app_nth1 by (rewrite length_map, length_seq; simpl; lia).
    simpl. rewrite (nth_indep _ 0 (f a 0%nat))
      by (rewrite length_map, length_seq; exact Hj).
    rewrite map_nth, seq_nth by exact Hj.
    rewrite Nat.add_0_r. reflexivity.
  - rewrite app_nth2 by (rewrite length_map, length_seq; simpl; lia).
    rewrite length_map, length_seq.
    replace (S i * c + j - c)%nat with (i * c + j)%nat by (simpl; lia).
    rewrite IH by lia. f_equal. lia.
Qed.

Lemma nth_rows (f : nat -> nat -> R) (c r i j : nat) :
  (i < r)%nat -> (j < c)%nat ->
  nth (i * c + j) (flat_map (fun i => map (f i) (seq 0 c)) (seq 0 r)) 0
  = f i j.
Proof. intros Hi Hj. apply (nth_rows_from f c r 0 i j Hi Hj). Qed.

(** ** Finite sums *)


Lemma sum_ext (h g : nat -> R) (js : list nat) :
  (forall j, In j js -> h j = g j) ->
  fold_right Rplus 0 (map h js) = fold_right Rplus 0 (map g js).
Proof.
  induction js as [|j js IH]; intros H; simpl.
  - reflexivity.
  - rewrite (H j) by (left; reflexivity).
    rewrite IH by (intros; apply H; right; assumption). reflexivity.
Qed.




(** ** The norm as a bound on the rows *)





(** ** The norm through product and sum *)

Lemma matmul_inv (A B P : matrix) :
  matmul A B = Ok P ->
  ncols A = nrows B
  /\ P = mkMatrix (nrows A) (ncols B)
           (flat_map (fun i =>
              map (fun j =>
                fold_right Rplus 0
                  (map (fun l => entry A i l * entry B l j)
                       (seq 0 (ncols A))))
                (seq 0 (ncols B)))
              (seq 0 (nrows A)))
           (mdtype A) (mdevice A).
Proof.
  unfold matmul. intros H.
  destruct (Nat.eqb_spec (ncols A) (nrows B)) as [Heq|]; [|discriminate].
  destruct (dtype_eqb _ _); [|discriminate].
  destruct (device_eqb _ _); [|discriminate].
  simpl in H. injection H as <-. split; [exact Heq | reflexivity].
Qed.






(** ** The matrix handed to the solver is a contraction *)






(** ** The scalar diagonal term *)






(** ** [forward] after its opening lines *)

(** On a well-formed model the matrix handed to the solver exists, is
    square of size n and does not depend on the input. *)
Lemma forward_effective (s : model) (dt : dtype) (dv : device) :
  well_formed dt dv s -> scalar_Diag_within dt dv s ->
  exists A,
    size A = (hidden_width s, hidden_width s)
    /\ has_kind dt dv A
    /\ forall U X0 UX,
         forward_inputs (hidden_width s) (input_width s) (uses_bias s) U X0
         = Ok UX ->
         forward U X0 s
         = (s,
            X <- solver s A (B_of s) (snd UX) (fst UX) ;;
            forward_output (C_of s) (value (D_of s)) X (fst UX)).
Proof.
  intros Hwf Hside. destruct s as [self | self | self]; simpl in *.
  - destruct Hwf as [HA [_ [_ [_ Hk]]]].
    inversion Hk as [|? ? KA _]; subst.
    exists (ImplicitModel.A self). repeat split; try assumption; try apply KA.
    intros U X0 [U' X0'] E. unfold on_variant, ImplicitModel.forward, lift.
    rewrite E. reflexivity.
  - destruct (ImplicitModelLoRA_A_eff_ok self dt dv Hwf) as [A [EA [SA KA]]].
    exists A. repeat split; try assumption; try apply KA.
    intros U X0 [U' X0'] E. unfold on_variant, ImplicitModelLoRA.forward, lift.
    rewrite E. simpl. rewrite EA. reflexivity.
  - destruct (Diag_projected_ok self dt dv Hwf Hside) as [Dp [ED [SD KD]]].
    destruct (projected_factors_ok self dt dv Hwf)
      as [Lp [RTp [nL [nR [P [EF [_ [_ [_ [_ [EP [SP KP]]]]]]]]]]]].
    destruct (add_ok dt dv Dp P) as [A [EA [SA KA]]];
      [congruence | assumption | assumption |].
    exists A. repeat split; try apply KA; [congruence|].
    intros U X0 UX E. unfold on_variant.
    rewrite (ImplicitModelLoRA2_forward_steps self U X0 UX Dp E ED).
    rewrite EF. simpl. unfold ImplicitModelLoRA2.A_eff. simpl.
    rewrite EP. simpl. rewrite EA. reflexivity.
Qed.


(** Accepted input with an [X0] given. *)
Lemma forward_inputs_accept_X0 (n p : nat) (bias : bool) (U X : tensor)
    (m p0 : nat) :
  shape U = [m; p0] -> p = (p0 + if bias then 1 else 0)%nat ->
  shape X = [m; n] ->
  exists U' X0',
    input_U bias U = Ok U'
    /\ transpose X = Ok X0'
    /\ X0' = transpose_matrix (mkMatrix m n (data X) (dtype_of X) (device_of X))
    /\ forward_inputs n p bias U (Some X) = Ok (U', X0')
    /\ size U' = (p, m) /\ has_kind (dtype_of U) (device_of U) U'
    /\ size X0' = (n, m) /\ has_kind (dtype_of X) (device_of X) X0'.
Proof.
  intros Hs Hp HsX.
  destruct (input_U_rank2 bias U m p0 Hs) as [U' [E [_ [Hsz HkU]]]].
  assert (ET : transpose X
               = Ok (transpose_matrix
                       (mkMatrix m n (data X) (dtype_of X) (device_of X)))).
  { unfold transpose, as_matrix. rewrite HsX. reflexivity. }
  exists U', (transpose_matrix
                (mkMatrix m n (data X) (dtype_of X) (device_of X))).
  split; [assumption|]. split; [assumption|]. split; [reflexivity|].
  unfold size in Hsz. injection Hsz as Hr Hc.
  split.
  - unfold forward_inputs. rewrite E. simpl.
    rewrite Hr, <- Hp, Nat.eqb_refl. simpl. rewrite ET. simpl.
    unfold size_eqb. simpl. rewrite Hc, !Nat.eqb_refl. reflexivity.
  - repeat split; try apply HkU. unfold size. congruence.
Qed.


(** X5: on a well-formed model of any class and on accepted input, the
    solver is called on the effective matrix, [B], the zero [X0] and the
    feature-major [U]; when it raises, [forward] ends in the same exception,
    without a retry, and [self] is as it was. *)
Theorem forward_solver_error (s : model) (dt : dtype) (dv : device)
    (U : tensor) (m p0 : nat) :
  well_formed dt dv s -> scalar_Diag_within dt dv s ->
  shape U = [m; p0] -> dtype_of U = dt -> device_of U = dv ->
  input_width s = (p0 + bias_rows s)%nat ->
  exists U' A,
    input_U (uses_bias s) U = Ok U'
    /\ size A = (hidden_width s, hidden_width s)
    /\ forall e,
         solver s A (B_of s) (zeros (hidden_width s) m dt dv) U' = Raise e ->
         forward U None s = (s, Raise e).
Proof.
  intros Hwf Hside Hs Hdt Hdv Hp.
  destruct (forward_effective s dt dv Hwf Hside) as [A [SA [KA Hfw]]].
  unfold bias_rows in Hp.
  destruct (forward_inputs_accept (hidden_width s) (input_width s)
              (uses_bias s) U m p0 Hs Hp) as [U' [EU [E _]]].
  rewrite Hdt, Hdv in E.
  exists U', A. split; [assumption|]. split; [assumption|].
  intros e He. rewrite (Hfw U None _ E). simpl. rewrite He. reflexivity.
Qed.

(** ** No state across calls *)



(** ** When the projection is defined *)



(** ** The scalar [Diag] beyond kappa *)

(** X8: in a well-formed [ImplicitModelLoRA2] without [diag] whose scalar
    [Diag] d has |d| > 0.95, every [forward] call whose input passes the
    opening checks ends in [TypeError] at the assignment to [self.Diag]:
    the solver is not called and [self], [Diag] included, is as it was. *)
Theorem forward_scalar_Diag_beyond_kappa (self : ImplicitModelLoRA2.t)
    (dt : dtype) (dv : device) (d : R) (U : tensor) (m p0 : nat) :
  ImplicitModelLoRA2.well_formed dt dv self ->
  ImplicitModelLoRA2.diag self = false ->
  data (value (ImplicitModelLoRA2.Diag self)) = [d] ->
  Rabs d > ImplicitModelLoRA2.kappa ->
  shape U = [m; p0] ->
  ImplicitModelLoRA2.p self
  = (p0 + if ImplicitModelLoRA2.bias self then 1 else 0)%nat ->
  ImplicitModelLoRA2.Diag_projected self = (self, Raise TypeError)
  /\ forward U None (LowRankDiag self) = (LowRankDiag self, Raise TypeError)
  /\ forall X, shape X = [m; ImplicitModelLoRA2.n self] ->
               forward U (Some X) (LowRankDiag self)
               = (LowRankDiag self, Raise TypeError).
Proof.
  intros Hwf Hdiag Hd Hgt Hs Hp.
  destruct Hwf as [_ [_ [_ [_ [[Dg [HD _]] _]]]]].
  assert (HdDg : data Dg = [d]) by (rewrite HD in Hd; exact Hd).
  split; [|split].
  - apply (Diag_projected_scalar_outside self Dg d Hdiag HD HdDg Hgt).
  - destruct (forward_inputs_accept (ImplicitModelLoRA2.n self)
                (ImplicitModelLoRA2.p self) (ImplicitModelLoRA2.bias self)
                U m p0 Hs Hp) as [U' [_ [E _]]].
    apply (scalar_rescale_raises self Dg d U None _ Hdiag HD HdDg Hgt E).
  - intros X HsX.
    destruct (forward_inputs_accept_X0 (ImplicitModelLoRA2.n self)
                (ImplicitModelLoRA2.p self) (ImplicitModelLoRA2.bias self)
                U X m p0 Hs Hp HsX) as [U' [X0' [_ [_ [_ [E _]]]]]].
    apply (scalar_rescale_raises self Dg d U (Some X) _ Hdiag HD HdDg Hgt E).
Qed.

(** ** What [__init__] builds *)

Lemma randn_div_stored (g : generator) (r c n : nat) :
  well_stored (div_int (fst (randn g r c)) n)
  /\ size (div_int (fst (randn g r c)) n) = (r, c).
Proof.
  unfold well_stored. simpl. rewrite !length_map, length_seq.
  split; reflexivity.
Qed.

Lemma zeros_stored (r c : nat) (dt : dtype) (dv : device) :
  well_stored (zeros r c dt dv).
Proof. unfold well_stored. simpl. apply repeat_length. Qed.

(** X9: for positive n and k, each of the three [__init__] builds a
    well-formed model: hidden width n, input width p (p + 1 under bias),
    output width q; [A] n x n (or [L] and [R] n x k), [B] n x p, [C] q x n,
    [D] q x p, each stored with one entry per position, of the default
    element type and on the default device; [Diag] is a registered
    parameter, a vector of length n under [diag] and a 1 x 1 matrix
    otherwise. *)
Theorem init_well_formed (g : generator) (k n p q : nat)
    (f : ImplicitFunction) (no_D bias diag : bool) :
  (0 < n)%nat -> (0 < k)%nat ->
  let dense := Dense (fst (ImplicitModel.__init__ g n p q f no_D bias)) in
  let lora :=
    LowRank (fst (ImplicitModelLoRA.__init__ g k n p q f no_D bias)) in
  let lora2 :=
    LowRankDiag
      (fst (ImplicitModelLoRA2.__init__ g k n p q f no_D bias diag)) in
  forall s, In s [dense; lora; lora2] ->
    well_formed default_dtype default_device s
    /\ Diag_registered s
    /\ hidden_width s = n
    /\ input_width s = (p + if bias then 1 else 0)%nat
    /\ output_width s = q
    /\ uses_bias s = bias
    /\ solver s = f
    /\ well_stored (B_of s) /\ well_stored (C_of s)
    /\ well_stored (value (D_of s)).
Proof.
  intros Hn Hk dense lora lora2 s Hin.
  assert (Hst : forall g r c, well_stored (div_int (fst (randn g r c)) n))
    by (intros; apply randn_div_stored).
  destruct Hin as [<- | [<- | [<- | []]]].
  - subst dense. destruct no_D, bias; simpl;
      unfold ImplicitModel.well_formed; simpl;
      repeat split; repeat constructor;
      try apply zeros_stored;
      try lia;
      try (unfold well_stored; simpl;
           rewrite ?length_map, ?length_seq; reflexivity).
  - subst lora. destruct no_D, bias; simpl;
      unfold ImplicitModelLoRA.well_formed; simpl;
      repeat split; try assumption; repeat constructor;
      try apply zeros_stored;
      try lia;
      try (unfold well_stored; simpl;
           rewrite ?length_map, ?length_seq; reflexivity).
  - subst lora2. destruct no_D, bias, diag; simpl;
      unfold ImplicitModelLoRA2.well_formed; simpl;
      repeat split; try assumption; repeat constructor;
      try apply zeros_stored;
      try lia;
      try (unfold well_stored; simpl;
           rewrite ?length_map, ?length_seq; reflexivity);
      try (eexists; repeat split; try reflexivity;
           try (intros H; discriminate H);
           try (intros _; eexists; reflexivity));
      try (eexists; reflexivity).
Qed.

(** ** The output without [D], and the bias column *)

Lemma rows_ext (f g : nat -> nat -> R) (c r : nat) :
  (forall i j, (i < r)%nat -> (j < c)%nat -> f i j = g i j) ->
  flat_map (fun i => map (f i) (seq 0 c)) (seq 0 r)
  = flat_map (fun i => map (g i) (seq 0 c)) (seq 0 r).
Proof.
  intros H.
  rewrite !flat_map_concat_map. f_equal.
  apply map_ext_in. intros i Hi. apply in_seq in Hi.
  apply map_ext_in. intros j Hj. apply in_seq in Hj.
  apply H; lia.
Qed.





Lemma sum_snoc_from (h : nat -> R) (a n : nat) :
  fold_right Rplus 0 (map h (seq a (n + 1)))
  = fold_right Rplus 0 (map h (seq a n)) + h (a + n)%nat.
Proof.
  revert a. induction n as [|n IH]; intros a; simpl.
  - rewrite Nat.add_0_r. ring.
  - rewrite IH. replace (S a + n)%nat with (a + S n)%nat by lia. ring.
Qed.

(** X11: under [bias], for a [U] of shape (m, p0), a weight matrix [W] of
    p0 + 1 columns ([B] in the solver, [D] in the output) multiplied with the
    padded feature-major [U] gives, at row i and batch entry j, the product
    of the first p0 columns of [W] with the transposed [U], plus the entry
    of the last column of [W] in row i: the last column acts as a bias
    vector, the same for every batch entry. *)
Theorem bias_is_last_column (U : tensor) (m p0 : nat) :
  shape U = [m; p0] ->
  exists Ut U',
    transpose U = Ok Ut
    /\ input_U true U = Ok U'
    /\ forall W P,
         matmul W U' = Ok P ->
         ncols W = (p0 + 1)%nat
         /\ forall i j, (i < nrows W)%nat -> (j < m)%nat ->
              entry P i j
              = fold_right Rplus 0
                  (map (fun l => entry W i l * entry Ut l j) (seq 0 p0))
                + entry W i p0.
Proof.
  intros Hs.
  set (M := mkMatrix m p0 (data U) (dtype_of U) (device_of U)).
  assert (ET : transpose U = Ok (transpose_matrix M)).
  { unfold transpose, as_matrix. rewrite Hs. reflexivity. }
  assert (EU : input_U true U = Ok (pad_row_of_ones (transpose_matrix M))).
  { unfold input_U. rewrite Hs. simpl. fold M. rewrite ET. reflexivity. }
  destruct (pad_row_of_ones_rows (transpose_matrix M))
    as [_ [_ [Hlast Hrest]]].
  { rewrite length_transpose_matrix. reflexivity. }
  simpl in Hlast, Hrest.
  exists (transpose_matrix M), (pad_row_of_ones (transpose_matrix M)).
  split; [assumption|]. split; [assumption|].
  intros W P HP. destruct (matmul_inv W _ P HP) as [Hin HPeq].
  simpl in Hin. split; [exact Hin|].
  intros i j Hi Hj. rewrite HPeq. unfold entry at 1. simpl.
  rewrite (nth_rows
             (fun i j => fold_right Rplus 0
                (map (fun l => entry W i l
                               * entry (pad_row_of_ones (transpose_matrix M))
                                       l j)
                     (seq 0 (ncols W))))
             m (nrows W) i j) by assumption.
  rewrite Hin, sum_snoc_from. simpl. rewrite Hlast by assumption.
  rewrite Rmult_1_r. f_equal.
  apply sum_ext. intros l Hl. apply in_seq in Hl.
  rewrite Hrest by lia. reflexivity.
Qed.

Lemma bias_is_last_column_witness :
  shape U_1x1 = [1; 1]%nat /\
  exists Ut U',
    transpose U_1x1 = Ok Ut
    /\ input_U true U_1x1 = Ok U'
    /\ forall W P,
         matmul W U' = Ok P ->
         ncols W = 2%nat
         /\ forall i j, (i < nrows W)%nat -> (j < 1)%nat ->
              entry P i j
              = fold_right Rplus 0
                  (map (fun l => entry W i l * entry Ut l j) (seq 0 1))
                + entry W i 1.
Proof.
  split; [reflexivity|].
  exact (bias_is_last_column U_1x1 1 1 eq_refl).
Defined.

(** ** Transposing twice *)

Lemma rows_of_stored (l : list R) (r c : nat) :
  List.length l = (r * c)%nat ->
  flat_map (fun i => map (fun j => nth (i * c + j) l 0) (seq 0 c)) (seq 0 r)
  = l.
Proof.
  intros Hlen. apply (nth_ext _ _ 0 0).
  - rewrite (length_rows R (fun i j => nth (i * c + j) l 0)). lia.
  - intros k Hk.
    rewrite (length_rows R (fun i j => nth (i * c + j) l 0)) in Hk.
    assert (Hc : (0 < c)%nat) by (destruct c; [lia | lia]).
    assert (Hdm : (k = (k / c) * c + k mod c)%nat).
    { rewrite Nat.mul_comm. apply Nat.div_mod. lia. }
    assert (Hi : (k / c < r)%nat).
    { apply Nat.Div0.div_lt_upper_bound. lia. }
    assert (Hj : (k mod c < c)%nat) by (apply Nat.mod_upper_bound; lia).
    rewrite Hdm at 1.
    rewrite (nth_rows (fun i j => nth (i * c + j) l 0) c r (k / c) (k mod c))
      by assumption.
    rewrite <- Hdm. reflexivity.
Qed.

(** X12: [M.transpose(-1, -2)] twice gives [M] back, for a matrix stored
    with one entry per position; and the entry of the transpose at (i, j) is
    the entry of [M] at (j, i). *)
Theorem transpose_matrix_involutive (M : matrix) :
  well_stored M ->
  transpose_matrix (transpose_matrix M) = M
  /\ well_stored (transpose_matrix M)
  /\ forall i j, (i < ncols M)%nat -> (j < nrows M)%nat ->
                 entry (transpose_matrix M) i j = entry M j i.
Proof.
  intros Hst.
  assert (Hent : forall i j, (i < ncols M)%nat -> (j < nrows M)%nat ->
                   entry (transpose_matrix M) i j = entry M j i).
  { intros i j Hi Hj. unfold entry at 1. simpl.
    apply (nth_rows (fun j i => entry M i j) (nrows M) (ncols M) i j);
      assumption. }
  split; [|split; [|exact Hent]].
  - unfold transpose_matrix at 1. simpl.
    rewrite (rows_ext (fun j i => entry (transpose_matrix M) i j)
                      (fun j i => nth (j * ncols M + i) (entries M) 0)
                      (ncols M) (nrows M)).
    + rewrite (rows_of_stored (entries M) (nrows M) (ncols M) Hst).
      destruct M; reflexivity.
    + intros j i Hj Hi. rewrite Hent by assumption. reflexivity.
  - unfold well_stored. rewrite length_transpose_matrix. reflexivity.
Qed.

(** ** The scalar diagonal term off the default device *)

(** X13: in a well-formed [ImplicitModelLoRA2] without [diag] whose
    parameters are on a CUDA device, with the scalar [Diag] within kappa,
    every [forward] call whose input passes the opening checks ends in
    [RuntimeError]: [torch.eye(n, n)] is created on the default device and
    cannot be multiplied with [Diag].  [self] is as it was and the solver is
    not called. *)
Theorem forward_scalar_Diag_on_cuda (self : ImplicitModelLoRA2.t)
    (dt : dtype) (index : nat) (d : R) (U : tensor) (m p0 : nat) :
  ImplicitModelLoRA2.well_formed dt (cuda index) self ->
  ImplicitModelLoRA2.diag self = false ->
  data (value (ImplicitModelLoRA2.Diag self)) = [d] ->
  Rabs d <= ImplicitModelLoRA2.kappa ->
  shape U = [m; p0] ->
  ImplicitModelLoRA2.p self
  = (p0 + if ImplicitModelLoRA2.bias self then 1 else 0)%nat ->
  ImplicitModelLoRA2.Diag_projected self = (self, Raise RuntimeError)
  /\ forward U None (LowRankDiag self)
     = (LowRankDiag self, Raise RuntimeError).
Proof.
  intros Hwf Hdiag Hd Hle Hs Hp.
  destruct Hwf as [_ [_ [_ [_ [[Dg [HD [HsD [_ [_ HdvD]]]]] _]]]]].
  rewrite Hdiag in HsD.
  assert (Hval : value (ImplicitModelLoRA2.Diag self) = Dg)
    by (rewrite HD; reflexivity).
  rewrite Hval in Hd.
  assert (ED : ImplicitModelLoRA2.Diag_projected self
               = (self, Raise RuntimeError)).
  { unfold ImplicitModelLoRA2.Diag_projected, mbind, get, lift, item, ret.
    rewrite Hdiag, Hval, Hd.
    destruct (Rgt_dec (Rabs d) ImplicitModelLoRA2.kappa) as [Hgt|_]; [lra|].
    rewrite Hval. unfold broadcast_matrix. rewrite HsD. simpl.
    unfold mul, pointwise. simpl. rewrite HdvD.
    destruct (broadcast_dim 1 (ImplicitModelLoRA2.n self)); reflexivity. }
  split; [exact ED|].
  destruct (forward_inputs_accept (ImplicitModelLoRA2.n self)
              (ImplicitModelLoRA2.p self) (ImplicitModelLoRA2.bias self)
              U m p0 Hs Hp) as [U' [_ [E _]]].
  simpl. unfold on_variant.
  rewrite (ImplicitModelLoRA2_forward_no_diagonal self U None _ RuntimeError
             E ED).
  reflexivity.
Qed.

(** ** The further properties on the example inputs *)

Lemma Rabs_half_within : Rabs 0.5 <= ImplicitModelLoRA2.kappa.
Proof.
  unfold ImplicitModelLoRA2.kappa, Rabs. destruct (Rcase_abs 0.5); lra.
Defined.

Lemma Rabs_one_beyond : Rabs 1 > ImplicitModelLoRA2.kappa.
Proof.
  unfold ImplicitModelLoRA2.kappa, Rabs. destruct (Rcase_abs 1); lra.
Defined.

Lemma lora2_scalar_well_formed (d : R) :
  ImplicitModelLoRA2.well_formed float32 cpu (lora2_scalar d).
Proof.
  unfold ImplicitModelLoRA2.well_formed. simpl.
  repeat split; try lia; try (repeat constructor).
  exists (mkTensor [1; 1]%nat [d] float32 cpu). repeat split.
  intros _. exists d. reflexivity.
Defined.

Lemma lora2_scalar_cuda_well_formed (d : R) :
  ImplicitModelLoRA2.well_formed float32 (cuda 0) (lora2_scalar_cuda d).
Proof.
  unfold ImplicitModelLoRA2.well_formed. simpl.
  repeat split; try lia; try (repeat constructor).
  exists (mkTensor [1; 1]%nat [d] float32 (cuda 0)). repeat split.
  intros _. exists d. reflexivity.
Defined.


Lemma dense_diverging_well_formed :
  well_formed float32 cpu (Dense dense_diverging).
Proof.
  simpl. unfold ImplicitModel.well_formed. simpl.
  repeat split; repeat constructor.
Defined.




Lemma forward_solver_error_witness :
  well_formed float32 cpu (Dense dense_diverging) /\
  scalar_Diag_within float32 cpu (Dense dense_diverging) /\
  shape U_1x1 = [1; 1]%nat /\ dtype_of U_1x1 = float32 /\
  device_of U_1x1 = cpu /\
  input_width (Dense dense_diverging)
  = (1 + bias_rows (Dense dense_diverging))%nat /\
  exists U' A,
    input_U (uses_bias (Dense dense_diverging)) U_1x1 = Ok U'
    /\ size A = (hidden_width (Dense dense_diverging),
                 hidden_width (Dense dense_diverging))
    /\ forall e,
         solver (Dense dense_diverging) A (B_of (Dense dense_diverging))
           (zeros (hidden_width (Dense dense_diverging)) 1 float32 cpu) U'
         = Raise e ->
         forward U_1x1 None (Dense dense_diverging)
         = (Dense dense_diverging, Raise e).
Proof.
  split; [exact dense_diverging_well_formed|]. split; [exact I|].
  repeat (split; [reflexivity|]).
  exact (forward_solver_error (Dense dense_diverging) float32 cpu U_1x1 1 1
           dense_diverging_well_formed I eq_refl eq_refl eq_refl eq_refl).
Defined.

Lemma forward_scalar_Diag_beyond_kappa_witness :
  ImplicitModelLoRA2.well_formed float32 cpu (lora2_scalar 1) /\
  ImplicitModelLoRA2.diag (lora2_scalar 1) = false /\
  data (value (ImplicitModelLoRA2.Diag (lora2_scalar 1))) = [1] /\
  Rabs 1 > ImplicitModelLoRA2.kappa /\
  shape U_1x1 = [1; 1]%nat /\
  ImplicitModelLoRA2.p (lora2_scalar 1)
  = (1 + if ImplicitModelLoRA2.bias (lora2_scalar 1) then 1 else 0)%nat /\
  ImplicitModelLoRA2.Diag_projected (lora2_scalar 1)
  = (lora2_scalar 1, Raise TypeError)
  /\ forward U_1x1 None (LowRankDiag (lora2_scalar 1))
     = (LowRankDiag (lora2_scalar 1), Raise TypeError)
  /\ forall X, shape X = [1%nat; ImplicitModelLoRA2.n (lora2_scalar 1)] ->
               forward U_1x1 (Some X) (LowRankDiag (lora2_scalar 1))
               = (LowRankDiag (lora2_scalar 1), Raise TypeError).
Proof.
  split; [exact (lora2_scalar_well_formed 1)|]. split; [reflexivity|].
  split; [reflexivity|]. split; [exact Rabs_one_beyond|].
  split; [reflexivity|]. split; [reflexivity|].
  exact (forward_scalar_Diag_beyond_kappa (lora2_scalar 1) float32 cpu 1
           U_1x1 1 1 (lora2_scalar_well_formed 1) eq_refl eq_refl
           Rabs_one_beyond eq_refl eq_refl).
Defined.

Lemma init_well_formed_witness :
  (0 < 4)%nat /\ (0 < 2)%nat /\
  forall s,
    In s [Dense (fst (ImplicitModel.__init__ counting 4 3 2 returns_X0
                        false true));
          LowRank (fst (ImplicitModelLoRA.__init__ counting 2 4 3 2
                          returns_X0 false true));
          LowRankDiag (fst (ImplicitModelLoRA2.__init__ counting 2 4 3 2
                              returns_X0 false true true))] ->
    well_formed default_dtype default_device s
    /\ Diag_registered s
    /\ hidden_width s = 4%nat
    /\ input_width s = (3 + 1)%nat
    /\ output_width s = 2%nat
    /\ uses_bias s = true
    /\ solver s = returns_X0
    /\ well_stored (B_of s) /\ well_stored (C_of s)
    /\ well_stored (value (D_of s)).
Proof.
  assert (Hn : (0 < 4)%nat) by lia.
  assert (Hk : (0 < 2)%nat) by lia.
  split; [exact Hn|]. split; [exact Hk|].
  exact (init_well_formed counting 2 4 3 2 returns_X0 false true true Hn Hk).
Defined.


Lemma transpose_matrix_involutive_witness :
  well_stored M_3_m1 /\
  transpose_matrix (transpose_matrix M_3_m1) = M_3_m1
  /\ well_stored (transpose_matrix M_3_m1)
  /\ forall i j, (i < ncols M_3_m1)%nat -> (j < nrows M_3_m1)%nat ->
                 entry (transpose_matrix M_3_m1) i j = entry M_3_m1 j i.
Proof.
  assert (Hst : well_stored M_3_m1) by reflexivity.
  split; [exact Hst|].
  exact (transpose_matrix_involutive M_3_m1 Hst).
Defined.

Lemma forward_scalar_Diag_on_cuda_witness :
  ImplicitModelLoRA2.well_formed float32 (cuda 0) (lora2_scalar_cuda 0.5) /\
  ImplicitModelLoRA2.diag (lora2_scalar_cuda 0.5) = false /\
  data (value (ImplicitModelLoRA2.Diag (lora2_scalar_cuda 0.5))) = [0.5] /\
  Rabs 0.5 <= ImplicitModelLoRA2.kappa /\
  shape U_1x1_cuda = [1; 1]%nat /\
  ImplicitModelLoRA2.p (lora2_scalar_cuda 0.5)
  = (1 + if ImplicitModelLoRA2.bias (lora2_scalar_cuda 0.5) then 1 else 0)%nat
  /\
  ImplicitModelLoRA2.Diag_projected (lora2_scalar_cuda 0.5)
  = (lora2_scalar_cuda 0.5, Raise RuntimeError)
  /\ forward U_1x1_cuda None (LowRankDiag (lora2_scalar_cuda 0.5))
     = (LowRankDiag (lora2_scalar_cuda 0.5), Raise RuntimeError).
Proof.
  split; [exact (lora2_scalar_cuda_well_formed 0.5)|]. split; [reflexivity|].
  split; [reflexivity|]. split; [exact Rabs_half_within|].
  split; [reflexivity|]. split; [reflexivity|].
  exact (forward_scalar_Diag_on_cuda (lora2_scalar_cuda 0.5) float32 0 0.5
           U_1x1_cuda 1 1 (lora2_scalar_cuda_well_formed 0.5) eq_refl eq_refl
           Rabs_half_within eq_refl eq_refl).
Defined.

(** ** Where the entries of a rank-3 input go *)

Lemma entry_transpose_matrix (M : matrix) (i j : nat) :
  (i < ncols M)%nat -> (j < nrows M)%nat ->
  entry (transpose_matrix M) i j = entry M j i.
Proof.
  intros Hi Hj. unfold entry at 1. simpl.
  apply (nth_rows (fun j i => entry M i j) (nrows M) (ncols M) i j);
    assumption.
Qed.

(** X14: a [U] of shape (m, T, p1) becomes a feature-major matrix of
    T * p1 rows (one more under bias) and m columns, in which the entry of
    batch element b, time step t and feature f, stored at position
    (b * T + t) * p1 + f of [U], sits in row t * p1 + f and column b: the
    time steps of one batch element are laid one after the other along the
    feature axis. *)
Theorem input_U_rank3_layout (bias : bool) (U : tensor) (m T p1 : nat) :
  shape U = [m; T; p1] ->
  exists U',
    input_U bias U = Ok U'
    /\ size U' = ((T * p1 + if bias then 1 else 0)%nat, m)
    /\ forall b t f, (b < m)%nat -> (t < T)%nat -> (f < p1)%nat ->
         entry U' (t * p1 + f) b = nth ((b * T + t) * p1 + f) (data U) 0.
Proof.
  intros Hs.
  set (M := mkMatrix m (T * p1) (data U) (dtype_of U) (device_of U)).
  assert (EU : input_U bias U
               = Ok (if bias then pad_row_of_ones (transpose_matrix M)
                     else transpose_matrix M)).
  { unfold input_U, flatten_1, transpose, as_matrix. rewrite Hs. simpl.
    reflexivity. }
  assert (Hidx : forall b t f, (b < m)%nat -> (t < T)%nat -> (f < p1)%nat ->
            (t * p1 + f < T * p1)%nat
            /\ entry (transpose_matrix M) (t * p1 + f) b
               = nth ((b * T + t) * p1 + f) (data U) 0).
  { intros b t f Hb Ht Hf.
    assert (Hlt : (t * p1 + f < T * p1)%nat) by nia.
    split; [exact Hlt|].
    rewrite entry_transpose_matrix by (simpl; assumption).
    unfold entry. simpl. f_equal. lia. }
  eexists. split; [exact EU|].
  destruct bias.
  - destruct (pad_row_of_ones_rows (transpose_matrix M))
      as [Hsz [_ [_ Hrest]]].
    { rewrite length_transpose_matrix. reflexivity. }
    split; [exact Hsz|].
    intros b t f Hb Ht Hf. destruct (Hidx b t f Hb Ht Hf) as [Hlt He].
    rewrite Hrest by (simpl; assumption). exact He.
  - split; [unfold size; simpl; f_equal; lia|].
    intros b t f Hb Ht Hf. apply (Hidx b t f Hb Ht Hf).
Qed.

Lemma input_U_rank3_layout_witness :
  shape U_1x2x1 = [1; 2; 1]%nat /\
  exists U',
    input_U true U_1x2x1 = Ok U'
    /\ size U' = ((2 * 1 + 1)%nat, 1%nat)
    /\ forall b t f, (b < 1)%nat -> (t < 2)%nat -> (f < 1)%nat ->
         entry U' (t * 1 + f) b = nth ((b * 2 + t) * 1 + f) (data U_1x2x1) 0.
Proof.
  split; [reflexivity|].
  exact (input_U_rank3_layout true U_1x2x1 1 2 1 eq_refl).
Defined.
